(** * Product-photo enhancer: canvas compositing, remote enhancement, usage counters

    A shallow embedding of the three TypeScript sources of the application:
    - [utils/fileUtils.ts]   ([fileToBase64], [applyTitle], [applyWatermark]),
    - [services/geminiService.ts] ([enhanceImage]),
    - [App.tsx] ([getISODateString], [calculateStats], the stats migration
      effect and [incrementUsage]),
    followed by the properties of these functions.

    Conventions of the embedding.
    - A JavaScript number is an exact rational ([Q]) or [NaN]; IEEE rounding
      and the infinities are not represented.  Integer quantities (pixel
      dimensions, counters, time values) are in [Z].
    - A JavaScript string is a [string]; its characters are code units below
      256.
    - Built-ins whose definition lies outside the repository ([Number],
      [toUpperCase], [measureText], image decoding, the 2D context) are the
      fields of the class [Host]; the functions are parametric in it.
    - A promise is its settled outcome: [Resolved v] or [Rejected e].
    - A canvas is its dimensions and the list of drawing calls issued on its
      context, each with the context state in force at the call. *)

From Stdlib Require Import ZArith QArith Qround String Ascii List Lia Lqa.
From stdpp Require Import base option list strings gmap.

Local Open Scope string_scope.
Local Open Scope Z_scope.

(* ===================================================================== *)
(** ** JavaScript values used by the sources                              *)
(* ===================================================================== *)

Module JS.

(** [WhiteSpace] and [LineTerminator] code units below 256: TAB, LF, VT,
    FF, CR, SP and NBSP. *)
Definition isWhiteSpace (c : ascii) : bool :=
  let n := N_of_ascii c in
  ((n =? 9) || (n =? 10) || (n =? 11) || (n =? 12) || (n =? 13)
   || (n =? 32) || (n =? 160))%N.

Fixpoint trimStart (s : string) : string :=
  match s with
  | EmptyString => EmptyString
  | String c r => if isWhiteSpace c then trimStart r else s
  end.

Definition trimEnd (s : string) : string :=
  String.rev (trimStart (String.rev s)).

(** [s.trim()] *)
Definition trim (s : string) : string := trimEnd (trimStart s).

(** [s.split(sep)] for a one-character separator. *)
Fixpoint split (sep : ascii) (s : string) : list string :=
  match s with
  | EmptyString => [EmptyString]
  | String c r =>
      if Ascii.eqb c sep then EmptyString :: split sep r
      else match split sep r with
           | h :: t => String c h :: t
           | [] => [String c EmptyString]
           end
  end.

(** [l.join(sep)] *)
Definition join (sep : string) (l : list string) : string :=
  String.concat sep l.

(** Truthiness of a string: every string but the empty one. *)
Definition truthyString (s : string) : bool := negb (String.eqb s "").

(** A number: [NaN] or a finite value. *)
Inductive jsnum : Type :=
| NaN
| Fin (q : Q).

(** Truthiness of a possibly [undefined] number: [undefined], [NaN] and
    zero are falsy. *)
Definition truthyNumber (x : option jsnum) : bool :=
  match x with
  | Some (Fin q) => negb (Qeq_bool q 0)
  | _ => false
  end.

Definition Qlt_bool (a b : Q) : bool := negb (Qle_bool b a).

(** Truncation toward zero. *)
Definition Qtrunc (q : Q) : Z :=
  if Qle_bool 0 q then Qfloor q else Qceiling q.

Definition Qmax (a b : Q) : Q := if Qle_bool a b then b else a.

(** [x === y] on numbers: [NaN] equals nothing. *)
Definition strictEq (x y : jsnum) : bool :=
  match x, y with
  | Fin a, Fin b => Qeq_bool a b
  | _, _ => false
  end.

Definition sub (x y : jsnum) : jsnum :=
  match x, y with
  | Fin a, Fin b => Fin (a - b)
  | _, _ => NaN
  end.

End JS.

(* ===================================================================== *)
(** ** The browser and engine facilities the sources call                 *)
(* ===================================================================== *)

(** [ctx.font = `${weight} ${size}px ${family}`] *)
Record font : Type := MkFont {
  font_weight : Z;
  font_size : Q;
  font_family : string
}.

(** A decoded image: its natural dimensions, at least one pixel each. *)
Record image : Type := MkImage {
  naturalWidth : positive;
  naturalHeight : positive
}.

Class Host : Type := {
  (** [Number(s)] *)
  Number : string -> JS.jsnum;
  (** [s.toUpperCase()] *)
  toUpperCase : string -> string;
  (** [ctx.measureText(text).width] under the font [f] *)
  measureText : font -> string -> Q;
  (** Decoding of an image source: [None] fires [onerror]. *)
  loadImage : string -> option image;
  (** Whether [canvas.getContext('2d')] returns a context. *)
  hasContext2d : bool
}.

(** A [File]: its MIME type, what [FileReader.readAsDataURL] yields ([None]
    when the reader fires [onerror]) and what decoding its object URL as an
    image yields. *)
Record File : Type := MkFile {
  file_type : string;
  file_dataURL : option string;
  file_image : option image
}.

(** A settled promise. *)
Inductive outcome (E A : Type) : Type :=
| Resolved (a : A)
| Rejected (e : E).
Arguments Resolved {E A} a.
Arguments Rejected {E A} e.

(** The messages of the [Error] objects the sources create. *)
Inductive message : Type :=
| FailedToReadBase64        (* "Failed to read file as Base64." *)
| NoCanvasContext           (* 'Could not get canvas context.' *)
| InvalidAspectRatioFormat  (* 'Invalid aspect ratio format.' *)
| RequestBlocked (finishReason : string)
    (* `Yeu cau da bi chan vi ly do: ${finishReason}. ...` *)
| TextInsteadOfImage (textResponse : string)
    (* `API khong tra ve hinh anh ma tra ve van ban: "${textResponse}".` *)
| NoImageReturned
    (* "API khong tra ve hinh anh. Yeu cau co the da bi tu choi ..." *)
| GeminiApiError (inner : message)
    (* `Loi API Gemini: ${error.message}` *)
| UnknownEnhancementError
    (* "Da xay ra loi khong xac dinh trong qua trinh nang cap anh." *)
| SdkError (text : string).
    (* the message of an Error raised by the remote call itself *)

(** A thrown or rejected value: an [Error] instance with its message, or a
    value that is not an [Error] (the event object handed to [onerror]). *)
Inductive thrown : Type :=
| ErrorObject (m : message)
| NonError.

(* ===================================================================== *)
(** ** The 2D canvas                                                      *)
(* ===================================================================== *)

Module Canvas.

Inductive imageRef : Type := BaseImage | WatermarkImage.

(** The drawing state of a context. *)
Record drawState : Type := MkState {
  st_font : font;
  st_fillStyle : string;
  st_shadowColor : string;
  st_shadowBlur : Q;
  st_shadowOffsetX : Q;
  st_shadowOffsetY : Q;
  st_textBaseline : string;
  st_globalAlpha : Q
}.

Inductive drawOp : Type :=
| DrawImageSub (img : imageRef) (sx sy sw sh : Q) (dx dy dw dh : Q)
    (* drawImage(img, sx, sy, sw, sh, dx, dy, dw, dh) *)
| DrawImageAt (img : imageRef) (dx dy : Q)
    (* drawImage(img, dx, dy) *)
| DrawImageScaled (img : imageRef) (dx dy dw dh : Q)
    (* drawImage(img, dx, dy, dw, dh) *)
| FillText (text : string) (x y : Q).
    (* fillText(text, x, y) *)

(** A call with the state in force when it was issued. *)
Definition drawCall : Type := drawOp * drawState.

(** A context: its state and the calls issued so far, oldest first. *)
Record ctx2d : Type := MkCtx {
  ctx_state : drawState;
  ctx_calls : list drawCall
}.

(** A canvas element once drawn on. *)
Record canvas : Type := MkCanvas {
  canvas_width : Z;
  canvas_height : Z;
  canvas_calls : list drawCall
}.

Definition initialState : drawState :=
  {| st_font := MkFont 400 10 "sans-serif";
     st_fillStyle := "#000000";
     st_shadowColor := "rgba(0, 0, 0, 0)";
     st_shadowBlur := 0;
     st_shadowOffsetX := 0;
     st_shadowOffsetY := 0;
     st_textBaseline := "alphabetic";
     st_globalAlpha := 1 |}.

Definition newContext : ctx2d := MkCtx initialState [].

Definition issue (op : drawOp) (c : ctx2d) : ctx2d :=
  MkCtx (ctx_state c) (ctx_calls c ++ [(op, ctx_state c)])%list.

Definition withState (f : drawState -> drawState) (c : ctx2d) : ctx2d :=
  MkCtx (f (ctx_state c)) (ctx_calls c).

Definition setFont (f : font) : ctx2d -> ctx2d :=
  withState (fun s =>
    MkState f (st_fillStyle s) (st_shadowColor s) (st_shadowBlur s)
            (st_shadowOffsetX s) (st_shadowOffsetY s) (st_textBaseline s)
            (st_globalAlpha s)).

Definition setFillStyle (v : string) : ctx2d -> ctx2d :=
  withState (fun s =>
    MkState (st_font s) v (st_shadowColor s) (st_shadowBlur s)
            (st_shadowOffsetX s) (st_shadowOffsetY s) (st_textBaseline s)
            (st_globalAlpha s)).

(** The four shadow attributes, assigned together in the sources. *)
Definition setShadow (color : string) (blur ox oy : Q) : ctx2d -> ctx2d :=
  withState (fun s =>
    MkState (st_font s) (st_fillStyle s) color blur ox oy
            (st_textBaseline s) (st_globalAlpha s)).

Definition setTextBaseline (v : string) : ctx2d -> ctx2d :=
  withState (fun s =>
    MkState (st_font s) (st_fillStyle s) (st_shadowColor s)
            (st_shadowBlur s) (st_shadowOffsetX s) (st_shadowOffsetY s) v
            (st_globalAlpha s)).

(** [ctx.globalAlpha = v]: a value outside 0..1 is ignored. *)
Definition setGlobalAlpha (v : Q) : ctx2d -> ctx2d :=
  withState (fun s =>
    if Qle_bool 0 v && Qle_bool v 1 then
      MkState (st_font s) (st_fillStyle s) (st_shadowColor s)
              (st_shadowBlur s) (st_shadowOffsetX s) (st_shadowOffsetY s)
              (st_textBaseline s) v
    else s).

Definition fillText (text : string) (x y : Q) : ctx2d -> ctx2d :=
  issue (FillText text x y).

(** Assignment of a number to [canvas.width] or [canvas.height]: the
    value is converted to an [unsigned long] (truncated, then reduced
    modulo 2^32) and stored when it lies in 0..2^31-1; otherwise the
    attribute takes its default ([dflt]: 300 for the width, 150 for the
    height). *)
Definition setDimension (dflt : Z) (v : Q) : Z :=
  let n := JS.Qtrunc v mod 2 ^ 32 in
  if n <=? 2147483647 then n else dflt.

Definition isFillText (c : drawCall) : bool :=
  match fst c with
  | FillText _ _ _ => true
  | _ => false
  end.

End Canvas.

(* ===================================================================== *)
(** ** utils/fileUtils.ts                                                 *)
(* ===================================================================== *)

Module FileUtils.
Import JS Canvas.

(** [fileToBase64]: the part of the data URL after the first comma. *)
Definition fileToBase64 (file : File) : outcome thrown (string * string) :=
  match file_dataURL file with
  | None => Rejected NonError
  | Some result =>
      match split "," result !! 1%nat with
      | Some base64Data =>
          if truthyString base64Data
          then Resolved (base64Data, file_type file)
          else Rejected (ErrorObject FailedToReadBase64)
      | None => Rejected (ErrorObject FailedToReadBase64)
      end
  end.

Record SubtitleOptions : Type := MkSubtitle {
  sub_text : string;
  sub_color : string
}.

Record titlePart : Type := MkPart {
  text : string;
  color : string
}.

Inductive WatermarkPosition : Type :=
| topLeft | topRight | bottomLeft | bottomRight.

(** The source rectangle of the crop. *)
Record cropRect : Type := MkCrop {
  sourceX : Q;
  sourceY : Q;
  sourceWidth : Q;
  sourceHeight : Q
}.

Definition px (p : positive) : Q := inject_Z (Z.pos p).

(** The aspect-ratio enforcement of [applyTitle] (source lines 49-67). *)
Definition cropFor (baseImage : image) (targetW targetH : Q) : cropRect :=
  let targetRatio := (targetW / targetH)%Q in
  let originalWidth := px (naturalWidth baseImage) in
  let originalHeight := px (naturalHeight baseImage) in
  let originalRatio := (originalWidth / originalHeight)%Q in
  if Qlt_bool targetRatio originalRatio then
    let sourceWidth := (originalHeight * targetRatio)%Q in
    MkCrop ((originalWidth - sourceWidth) / 2) 0 sourceWidth originalHeight
  else if Qlt_bool originalRatio targetRatio then
    let sourceHeight := (originalWidth / targetRatio)%Q in
    MkCrop 0 ((originalHeight - sourceHeight) / 2) originalWidth sourceHeight
  else MkCrop 0 0 originalWidth originalHeight.

(** The value of a number known to be finite (after the truthiness
    guard). *)
Definition valueOf (x : option jsnum) : Q :=
  match x with
  | Some (Fin q) => q
  | _ => 0%Q
  end.

Section WithHost.
Context `{Host}.

(** [titleParts.filter(p => p.text && p.text.trim() !== '')] *)
Definition validPartsOf (titleParts : list titlePart) : list titlePart :=
  List.filter
    (fun p => truthyString (text p) && negb (String.eqb (trim (text p)) ""))
    titleParts.

(** [validParts.map(p => p.text.toUpperCase()).join(' ')] *)
Definition fullTextOf (validParts : list titlePart) : string :=
  join " " (List.map (fun p => toUpperCase (text p)) validParts).

Definition titleFont (fontSize : Z) (fontFamily : string) : font :=
  MkFont 800 (inject_Z fontSize) fontFamily.

(** [ctx.measureText(fullText).width <= maxWidth] at [fontSize]. *)
Definition fitsAt (fontFamily fullText : string) (maxWidth fontSize : Z)
  : bool :=
  Qle_bool (measureText (titleFont fontSize fontFamily) fullText)
           (inject_Z maxWidth).

(** The loop [while (fontSize > 10) { if (fits) break; fontSize--; }],
    unrolled at most [fuel] times. *)
Fixpoint fontLoop (fits : Z -> bool) (fuel : nat) (fontSize : Z) : Z :=
  match fuel with
  | O => fontSize
  | S fuel' =>
      if 10 <? fontSize then
        if fits fontSize then fontSize
        else fontLoop fits fuel' (fontSize - 1)
      else fontSize
  end.

(** [titleFontSize]: the loop started at 200; 190 steps reach 10. *)
Definition titleFontSizeOf (fontFamily fullText : string)
           (canvasWidth : Z) : Z :=
  let maxWidth := canvasWidth - 80 in
  fontLoop (fitsAt fontFamily fullText maxWidth) 190 200.

(** The body of [validParts.forEach((part, index) => ...)]; [isLast]
    is [index = validParts.length - 1]. *)
Definition drawPart (titleFontSize : Z) (y : Q) (isLast : bool)
           (part : titlePart) (acc : Q * ctx2d) : Q * ctx2d :=
  let '(currentX, ctx) := acc in
  let partText := toUpperCase (text part) in
  let depth := Z.max 2 (Qceiling (inject_Z titleFontSize / 35)) in
  let ctx := setFillStyle "rgba(0, 0, 0, 0.6)" ctx in
  let ctx :=
    fold_left
      (fun c i => fillText partText (currentX + inject_Z i)
                           (y + inject_Z i) c)
      (seqZ 1 depth) ctx in
  let shadowOffset := Qmax 2 (inject_Z titleFontSize / 40) in
  let ctx :=
    setShadow "rgba(0, 0, 0, 0.75)"
              (Qmax 5 (inject_Z titleFontSize / 15))
              shadowOffset shadowOffset ctx in
  let ctx := setFillStyle (color part) ctx in
  let ctx := fillText partText currentX y ctx in
  let ctx := setShadow "transparent" 0 0 0 ctx in
  let f := st_font (ctx_state ctx) in
  let currentX := (currentX + measureText f partText)%Q in
  let currentX :=
    if isLast then currentX else (currentX + measureText f " ")%Q in
  (currentX, ctx).

Fixpoint drawParts (titleFontSize : Z) (y : Q) (parts : list titlePart)
         (acc : Q * ctx2d) : Q * ctx2d :=
  match parts with
  | [] => acc
  | part :: rest =>
      let isLast := match rest with [] => true | _ => false end in
      drawParts titleFontSize y rest
                (drawPart titleFontSize y isLast part acc)
  end.

(** The [if (hasTitle) { ... }] block; returns [titleFontSize]. *)
Definition drawTitle (validParts : list titlePart) (fontFamily : string)
           (canvasWidth : Z) (ctx : ctx2d) : Z * ctx2d :=
  let fullText := fullTextOf validParts in
  let titleFontSize := titleFontSizeOf fontFamily fullText canvasWidth in
  let ctx := setFont (titleFont titleFontSize fontFamily) ctx in
  let ctx := setTextBaseline "top" ctx in
  let totalWidth := measureText (st_font (ctx_state ctx)) fullText in
  let currentX := ((inject_Z canvasWidth - totalWidth) / 2)%Q in
  let y := 25%Q in
  (titleFontSize,
   snd (drawParts titleFontSize y validParts (currentX, ctx))).

(** The [if (hasSubtitle) { ... }] block. *)
Definition drawSubtitle (subtitleOptions : SubtitleOptions)
           (fontFamily : string) (hasTitle : bool) (titleFontSize : Z)
           (canvasWidth canvasHeight : Z) (ctx : ctx2d) : ctx2d :=
  let subtitleText := sub_text subtitleOptions in
  let titleHeight := inject_Z titleFontSize in
  let baseSize :=
    if hasTitle then inject_Z titleFontSize
    else (inject_Z canvasHeight * (1 # 10))%Q in
  let subtitleFontSize := Qmax 20 (baseSize * (4 # 10)) in
  let ctx := setFont (MkFont 600 subtitleFontSize fontFamily) ctx in
  let subtitleWidth :=
    measureText (st_font (ctx_state ctx)) subtitleText in
  let subtitleX := ((inject_Z canvasWidth - subtitleWidth) / 2)%Q in
  let subtitleY :=
    (25 + (if hasTitle then titleHeight + titleHeight * (1 # 10) else 0))%Q
  in
  let ctx := setShadow "rgba(0, 0, 0, 0.8)" 5 2 2 ctx in
  let ctx := setFillStyle (sub_color subtitleOptions) ctx in
  let ctx := fillText subtitleText subtitleX subtitleY ctx in
  setShadow "transparent" 0 0 0 ctx.

(** [subtitleOptions && subtitleOptions.text.trim() !== ''] *)
Definition hasSubtitleOf (subtitleOptions : option SubtitleOptions)
  : bool :=
  match subtitleOptions with
  | Some o => negb (String.eqb (trim (sub_text o)) "")
  | None => false
  end.

(** The canvas after the crop has been drawn (source lines 69-84). *)
Definition croppedContext (crop : cropRect) (canvasWidth canvasHeight : Z)
  : ctx2d :=
  issue (DrawImageSub BaseImage
                      (sourceX crop) (sourceY crop)
                      (sourceWidth crop) (sourceHeight crop)
                      0 0 (inject_Z canvasWidth) (inject_Z canvasHeight))
        newContext.

(** What [applyTitle] draws once the image is decoded, the context
    obtained and the aspect ratio accepted (source lines 49-172). *)
Definition compose (baseImage : image) (targetW targetH : Q)
           (titleParts : list titlePart) (fontFamily : string)
           (subtitleOptions : option SubtitleOptions) : canvas :=
  let crop := cropFor baseImage targetW targetH in
  let canvasWidth := setDimension 300 (sourceWidth crop) in
  let canvasHeight := setDimension 150 (sourceHeight crop) in
  let ctx := croppedContext crop canvasWidth canvasHeight in
  let validParts := validPartsOf titleParts in
  let hasTitle := (0 <? length validParts)%nat in
  let hasSubtitle := hasSubtitleOf subtitleOptions in
  if negb hasTitle && negb hasSubtitle
  then MkCanvas canvasWidth canvasHeight (ctx_calls ctx)
  else
    let '(titleFontSize, ctx) :=
      if hasTitle
      then drawTitle validParts fontFamily canvasWidth ctx
      else (0, ctx) in
    let ctx :=
      match subtitleOptions with
      | Some o =>
          if hasSubtitle
          then drawSubtitle o fontFamily hasTitle titleFontSize
                            canvasWidth canvasHeight ctx
          else ctx
      | None => ctx
      end in
    MkCanvas canvasWidth canvasHeight (ctx_calls ctx).

Definition applyTitle (baseImageSrc : string)
           (titleParts : list titlePart) (fontFamily : string)
           (subtitleOptions : option SubtitleOptions)
           (aspectRatio : string) : outcome thrown canvas :=
  match loadImage baseImageSrc with
  | None => Rejected NonError
  | Some baseImage =>
      if negb hasContext2d then Rejected (ErrorObject NoCanvasContext)
      else
        let nums := List.map Number (split ":" aspectRatio) in
        let targetW := nums !! 0%nat in
        let targetH := nums !! 1%nat in
        if negb (truthyNumber targetW) || negb (truthyNumber targetH)
        then Rejected (ErrorObject InvalidAspectRatioFormat)
        else
          Resolved (compose baseImage (valueOf targetW) (valueOf targetH)
                            titleParts fontFamily subtitleOptions)
  end.

(** The geometry of the watermark (source lines 216-244). *)
Record placement : Type := MkPlacement {
  wm_x : Q;
  wm_y : Q;
  watermarkWidth : Q;
  watermarkHeight : Q
}.

Definition padding : Q := 20.

Definition placeWatermark (canvasWidth canvasHeight : Z)
           (baseImage watermarkImage : image)
           (position : WatermarkPosition) (size : Q) : placement :=
  let watermarkAspectRatio :=
    (px (naturalWidth watermarkImage)
     / px (naturalHeight watermarkImage))%Q in
  let watermarkWidth := (px (naturalWidth baseImage) * size)%Q in
  let watermarkHeight := (watermarkWidth / watermarkAspectRatio)%Q in
  let right := (inject_Z canvasWidth - watermarkWidth - padding)%Q in
  let bottom := (inject_Z canvasHeight - watermarkHeight - padding)%Q in
  match position with
  | topLeft => MkPlacement padding padding watermarkWidth watermarkHeight
  | topRight => MkPlacement right padding watermarkWidth watermarkHeight
  | bottomLeft => MkPlacement padding bottom watermarkWidth watermarkHeight
  | bottomRight => MkPlacement right bottom watermarkWidth watermarkHeight
  end.

Definition applyWatermark (baseImageSrc : string) (watermarkFile : File)
           (opacity : Q) (position : WatermarkPosition) (size : Q)
  : outcome thrown canvas :=
  match loadImage baseImageSrc with
  | None => Rejected NonError
  | Some baseImage =>
      match file_image watermarkFile with
      | None => Rejected NonError
      | Some watermarkImage =>
          if negb hasContext2d then Rejected (ErrorObject NoCanvasContext)
          else
            let canvasWidth :=
              setDimension 300 (px (naturalWidth baseImage)) in
            let canvasHeight :=
              setDimension 150 (px (naturalHeight baseImage)) in
            let ctx := issue (DrawImageAt BaseImage 0 0) newContext in
            let ctx := setGlobalAlpha opacity ctx in
            let p := placeWatermark canvasWidth canvasHeight baseImage
                                    watermarkImage position size in
            let ctx :=
              issue (DrawImageScaled WatermarkImage (wm_x p) (wm_y p)
                                     (watermarkWidth p)
                                     (watermarkHeight p)) ctx in
            Resolved (MkCanvas canvasWidth canvasHeight (ctx_calls ctx))
      end
  end.

End WithHost.

(** Defaults of [applyWatermark]'s optional parameters. *)
Definition defaultPosition : WatermarkPosition := bottomRight.
Definition defaultSize : Q := 15 # 100.

End FileUtils.

(* ===================================================================== *)
(** ** services/geminiService.ts                                          *)
(* ===================================================================== *)

Module GeminiService.
Import JS.

Inductive backgroundStyle : Type :=
| styleDefault | styleSolid | styleGradient | styleBlur | styleUpload.

Record BackgroundOptions : Type := MkOptions {
  style : backgroundStyle;
  color1 : option string;
  color2 : option string;
  backgroundImage : option File
}.

(** [value || fallback] on an optional string. *)
Definition orDefault (value : option string) (fallback : string) : string :=
  match value with
  | Some v => if truthyString v then v else fallback
  | None => fallback
  end.

(** The background sentence of the prompt, by its variable parts. *)
Inductive backgroundInstruction : Type :=
| SolidBackground (c : string)
| GradientBackground (c1 c2 : string)
| BlurredBackground
| SecondImageBackground
| DefaultBackground.

(** The prompt: a fixed text around the background sentence and the
    aspect ratio. *)
Record prompt : Type := MkPrompt {
  prompt_background : backgroundInstruction;
  prompt_aspectRatio : string
}.

Definition generatePrompt (options : BackgroundOptions)
           (aspectRatio : string) : prompt :=
  let instruction :=
    match style options with
    | styleSolid => SolidBackground (orDefault (color1 options) "#FFFFFF")
    | styleGradient =>
        GradientBackground (orDefault (color1 options) "#4ade80")
                           (orDefault (color2 options) "#3b82f6")
    | styleBlur => BlurredBackground
    | styleUpload => SecondImageBackground
    | styleDefault => DefaultBackground
    end in
  MkPrompt instruction aspectRatio.

(** A part of the request. *)
Inductive requestPart : Type :=
| RequestImage (data mimeType : string)
| RequestText (p : prompt).

(** The response of [generateContent], by the fields the source reads. *)
Record inlineData : Type := MkInline {
  inline_data : string;
  inline_mimeType : string
}.

Record Part : Type := MkRespPart {
  part_inlineData : option inlineData;
  part_text : option string
}.

Record Candidate : Type := MkCandidate {
  finishReason : option string;
  (** [candidate.content.parts]: [None] when [content] or [parts] is
      missing. *)
  contentParts : option (list Part)
}.

Record Response : Type := MkResponse {
  candidates : option (list Candidate)
}.

Inductive apiOutcome : Type :=
| Responds (r : Response)
| Throws (t : thrown).

(** The remote endpoint: what it answers to its n-th call, and the
    requests received so far. *)
Record remote : Type := MkRemote {
  answer : nat -> list requestPart -> apiOutcome;
  received : list (list requestPart)
}.

(** [ai.models.generateContent({ contents: { parts }, ... })] *)
Definition generateContent (parts : list requestPart) (r : remote)
  : apiOutcome * remote :=
  (answer r (length (received r)) parts,
   MkRemote (answer r) (received r ++ [parts])%list).

(** [candidate.finishReason && candidate.finishReason !== 'STOP'
     && candidate.finishReason !== 'MAX_TOKENS'] *)
Definition isBlocked (candidate : Candidate) : bool :=
  match finishReason candidate with
  | Some reason =>
      truthyString reason && negb (String.eqb reason "STOP")
      && negb (String.eqb reason "MAX_TOKENS")
  | None => false
  end.

(** The loop [for (const part of parts) if (part.inlineData) return ...] *)
Fixpoint firstInlineData (parts : list Part) : option string :=
  match parts with
  | [] => None
  | part :: rest =>
      match part_inlineData part with
      | Some d => Some (inline_data d)
      | None => firstInlineData rest
      end
  end.

(** [parts.filter(p => p.text).map(p => p.text)] *)
Fixpoint textPartsOf (parts : list Part) : list string :=
  match parts with
  | [] => []
  | part :: rest =>
      match part_text part with
      | Some t => if truthyString t then t :: textPartsOf rest
                  else textPartsOf rest
      | None => textPartsOf rest
      end
  end.

(** The checks on the response (source lines 81-105); [Rejected] is a
    [throw] inside the [try] block. *)
Definition readResponse (response : Response) : outcome thrown string :=
  match candidates response with
  | Some (candidate :: _) =>
      if isBlocked candidate then
        Rejected (ErrorObject
                    (RequestBlocked (default "" (finishReason candidate))))
      else
        match contentParts candidate with
        | Some parts =>
            match firstInlineData parts with
            | Some data => Resolved data
            | None =>
                let textParts := textPartsOf parts in
                if (0 <? length textParts)%nat then
                  Rejected (ErrorObject
                              (TextInsteadOfImage
                                 (trim (join " " textParts))))
                else Rejected (ErrorObject NoImageReturned)
            end
        | None => Rejected (ErrorObject NoImageReturned)
        end
  | _ => Rejected (ErrorObject NoImageReturned)
  end.

(** The [try] block of [enhanceImage]. *)
Definition tryEnhance (file : File) (options : BackgroundOptions)
           (aspectRatio : string) (r : remote)
  : outcome thrown string * remote :=
  match FileUtils.fileToBase64 file with
  | Rejected e => (Rejected e, r)
  | Resolved (productBase64, productMimeType) =>
      let p := generatePrompt options aspectRatio in
      let parts := [RequestImage productBase64 productMimeType] in
      let background :=
        match style options, backgroundImage options with
        | styleUpload, Some f => Some (FileUtils.fileToBase64 f)
        | _, _ => None
        end in
      match background with
      | Some (Rejected e) => (Rejected e, r)
      | _ =>
          let parts :=
            match background with
            | Some (Resolved (backgroundBase64, backgroundMimeType)) =>
                (parts ++ [RequestImage backgroundBase64 backgroundMimeType])%list
            | _ => parts
            end in
          let parts := (parts ++ [RequestText p])%list in
          match generateContent parts r with
          | (Throws e, r') => (Rejected e, r')
          | (Responds response, r') => (readResponse response, r')
          end
      end
  end.

(** The [catch] block: an [Error] is rethrown with its message prefixed,
    any other value as the unknown-error message. *)
Definition rethrow (error : thrown) : thrown :=
  match error with
  | ErrorObject m => ErrorObject (GeminiApiError m)
  | NonError => ErrorObject UnknownEnhancementError
  end.

Definition enhanceImage (file : File) (options : BackgroundOptions)
           (aspectRatio : string) (r : remote)
  : outcome thrown string * remote :=
  match tryEnhance file options aspectRatio r with
  | (Resolved data, r') => (Resolved data, r')
  | (Rejected e, r') => (Rejected (rethrow e), r')
  end.

End GeminiService.

(* ===================================================================== *)
(** ** The built-in [Date], in a time zone of fixed offset                *)
(* ===================================================================== *)

(** A [Date] object is its time value: milliseconds since the epoch, UTC,
    within the range a [Date] can hold.  The time zone is given by [tz],
    the value of [getTimezoneOffset()] in minutes (UTC minus local time),
    the same for every date. *)
Module JSDate.

Definition msPerDay : Z := 86400000.
Definition msPerMinute : Z := 60000.

Definition Day (t : Z) : Z := t / msPerDay.
Definition TimeWithinDay (t : Z) : Z := t mod msPerDay.

(** Year, month (1..12) and day of the month of a day number, in the
    proleptic Gregorian calendar; eras of 400 years start on 1 March. *)
Definition civilFromDays (z : Z) : Z * Z * Z :=
  let z := z + 719468 in
  let era := z / 146097 in
  let doe := z mod 146097 in
  let yoe := (doe - doe / 1460 + doe / 36524 - doe / 146096) / 365 in
  let doy := doe - (365 * yoe + yoe / 4 - yoe / 100) in
  let mp := (5 * doy + 2) / 153 in
  let d := doy - (153 * mp + 2) / 5 + 1 in
  let m := if mp <? 10 then mp + 3 else mp - 9 in
  (yoe + era * 400 + (if m <=? 2 then 1 else 0), m, d).

(** The day number of a calendar date; [d] may lie outside the month
    ([MakeDay]). *)
Definition daysFromCivil (y m d : Z) : Z :=
  let y := if m <=? 2 then y - 1 else y in
  let era := y / 400 in
  let yoe := y mod 400 in
  let doy := (153 * (if 2 <? m then m - 3 else m + 9) + 2) / 5 + d - 1 in
  let doe := yoe * 365 + yoe / 4 - yoe / 100 + doy in
  era * 146097 + doe - 719468.

Definition digit (n : Z) : ascii :=
  ascii_of_N (48 + Z.to_N (n mod 10)).

(** [n] in [width] decimal digits, most significant first. *)
Fixpoint digits (width : nat) (n : Z) : string :=
  match width with
  | O => EmptyString
  | S w => String (digit (n / 10 ^ Z.of_nat w)) (digits w n)
  end.

(** The year of [toISOString]: four digits from 0 to 9999, a sign and
    six digits otherwise. *)
Definition yearString (y : Z) : string :=
  if (0 <=? y) && (y <=? 9999) then digits 4 y
  else String (if y <? 0 then "-"%char else "+"%char) (digits 6 (Z.abs y)).

Definition dateString (ymd : Z * Z * Z) : string :=
  let '(y, m, d) := ymd in
  (yearString y ++ "-" ++ digits 2 m ++ "-" ++ digits 2 d)%string.

Definition timeString (ms : Z) : string :=
  (digits 2 (ms / 3600000) ++ ":" ++ digits 2 (ms / 60000 mod 60) ++ ":"
   ++ digits 2 (ms / 1000 mod 60) ++ "." ++ digits 3 (ms mod 1000))%string.

(** [date.toISOString()]: [YYYY-MM-DDTHH:mm:ss.sssZ] in UTC. *)
Definition toISOString (t : Z) : string :=
  (dateString (civilFromDays (Day t)) ++ "T"
   ++ timeString (TimeWithinDay t) ++ "Z")%string.

Definition LocalTime (tz t : Z) : Z := t - tz * msPerMinute.
Definition UTC (tz t : Z) : Z := t + tz * msPerMinute.

Definition getFullYear (tz t : Z) : Z :=
  let '(y, _, _) := civilFromDays (Day (LocalTime tz t)) in y.

(** [getMonth()]: 0 for January. *)
Definition getMonth (tz t : Z) : Z :=
  let '(_, m, _) := civilFromDays (Day (LocalTime tz t)) in m - 1.

Definition getDate (tz t : Z) : Z :=
  let '(_, _, d) := civilFromDays (Day (LocalTime tz t)) in d.

(** [date.setDate(dt)]: the day [dt] of the date's local month, at the
    same local time of day. *)
Definition setDate (tz t dt : Z) : Z :=
  let local := LocalTime tz t in
  let '(y, m, _) := civilFromDays (Day local) in
  UTC tz (daysFromCivil y m dt * msPerDay + TimeWithinDay local).

End JSDate.

(* ===================================================================== *)
(** ** App.tsx: usage counters                                            *)
(* ===================================================================== *)

Module App.
Import JS.

Record UsageStats : Type := MkUsage {
  today : Z;
  yesterday : Z;
  last7Days : Z;
  thisMonth : Z;
  total : Z
}.

(** The [today] property of the old stored shape. *)
Record dayCount : Type := MkDayCount {
  date : string;
  count : Z
}.

(** The object parsed from the stored item, by its own properties:
    [None] when [hasOwnProperty] is false. *)
Record statsObject : Type := MkStats {
  stored_today : option dayCount;
  stored_total : option Z;
  stored_dailyCounts : option (gmap string Z)
}.

(** The stored item: a text [JSON.parse] rejects, or the text of an
    object. *)
Inductive item : Type :=
| Unparseable
| Json (o : statsObject).

(** [localStorage] at the key 'vongtinhImageEnhancerStats'. *)
Definition storage : Type := option item.

Definition emptyObject : statsObject := MkStats None None None.

(** [getISODateString]: the date part of the ISO string of the time
    value shifted by the offset. *)
Definition getISODateString (tz date : Z) : string :=
  let offset := tz in
  let adjustedDate := date - offset * 60 * 1000 in
  default "" (split "T" (JSDate.toISOString adjustedDate) !! 0%nat).

(** [dailyCounts[key] || 0] *)
Definition countAt (dailyCounts : gmap string Z) (key : string) : Z :=
  default 0 (dailyCounts !! key).

Section WithHost.
Context `{Host}.

(** [calculateStats(data)]; every [new Date()] of the call reads the
    same instant [now]. *)
Definition calculateStats (tz now : Z) (data : statsObject)
  : UsageStats :=
  let dailyCounts := default ∅ (stored_dailyCounts data) in
  let total := default 0 (stored_total data) in
  let todayStr := getISODateString tz now in
  let yesterday := JSDate.setDate tz now (JSDate.getDate tz now - 1) in
  let yesterdayStr := getISODateString tz yesterday in
  let last7DaysCount :=
    fold_left
      (fun acc i =>
         let d := JSDate.setDate tz now (JSDate.getDate tz now - i) in
         acc + countAt dailyCounts (getISODateString tz d))
      (seqZ 0 7) 0 in
  let currentMonth := JSDate.getMonth tz now in
  let currentYear := JSDate.getFullYear tz now in
  let thisMonthCount :=
    map_fold
      (fun dateStr n acc =>
         let nums := List.map Number (split "-" dateStr) in
         let year := default NaN (nums !! 0%nat) in
         let month := default NaN (nums !! 1%nat) in
         if strictEq year (Fin (inject_Z currentYear))
            && strictEq (sub month (Fin 1)) (Fin (inject_Z currentMonth))
         then acc + n else acc)
      0 dailyCounts in
  {| today := countAt dailyCounts todayStr;
     yesterday := countAt dailyCounts yesterdayStr;
     last7Days := last7DaysCount;
     thisMonth := thisMonthCount;
     total := total |}.

(** The old stored shape: [today] and [total] but no [dailyCounts]. *)
Definition isOldShape (o : statsObject) : bool :=
  match stored_today o, stored_total o, stored_dailyCounts o with
  | Some _, Some _, None => true
  | _, _, _ => false
  end.

(** The migration of the old shape (source lines 116-128). *)
Definition migrate (now : Z) (o : statsObject) : statsObject :=
  match stored_today o with
  | Some t =>
      let todayDate := date t in
      let todayCount := count t in
      let todayDateObj :=
        default "" (split "T" (JSDate.toISOString now) !! 0%nat) in
      let newDailyCounts : gmap string Z :=
        if String.eqb todayDate todayDateObj
        then <[todayDate := todayCount]> ∅
        else ∅ in
      MkStats None (stored_total o) (Some newDailyCounts)
  | None => o
  end.

(** The effect run on mount: reads the stored item, migrates the old
    shape, removes an unparseable item, and computes the statistics. *)
Definition loadStats (tz now : Z) (st : storage) : storage * UsageStats :=
  match st with
  | None => (None, calculateStats tz now emptyObject)
  | Some Unparseable => (None, calculateStats tz now emptyObject)
  | Some (Json o) =>
      if isOldShape o then
        let o' := migrate now o in
        (Some (Json o'), calculateStats tz now o')
      else (Some (Json o), calculateStats tz now o)
  end.

(** [incrementUsage()] at the instant [now]. *)
Definition incrementUsage (tz now : Z) (st : storage)
  : storage * UsageStats :=
  let '(currentTotal, currentDailyCounts) :=
    match st with
    | Some (Json o) =>
        (stored_total o, default ∅ (stored_dailyCounts o))
    | _ => (Some 0, ∅)
    end in
  let todayStr := getISODateString tz now in
  let newTotal := default 0 currentTotal + 1 in
  let newDailyCounts :=
    <[todayStr := countAt currentDailyCounts todayStr + 1]>
      currentDailyCounts in
  let newStatsToStore := MkStats None (Some newTotal) (Some newDailyCounts) in
  (Some (Json newStatsToStore), calculateStats tz now newStatsToStore).

(** One [incrementUsage] at each of the instants [times], in order. *)
Definition incrementAt (tz : Z) (times : list Z) (st : storage) : storage :=
  fold_left (fun s t => fst (incrementUsage tz t s)) times st.

End WithHost.

End App.


(* ===================================================================== *)
(** ** App.tsx: the handlers of the enhancement and of the final image    *)
(* ===================================================================== *)

Module AppHandlers.
Import JS Canvas FileUtils GeminiService App.

(** The texts [setError] is called with. *)
Inductive notice : Type :=
| ChooseImageFirst       (* "Vui long chon mot hinh anh de nang cap." *)
| UploadBackgroundFirst  (* "Vui long tai len anh nen khi chon ..." *)
| ErrorMessage (m : message)  (* err.message *)
| UnknownError.          (* "Da xay ra loi khong xac dinh." *)

(** The texts [setLoadingMessage] is called with. *)
Inductive loadingText : Type :=
| NoText                     (* '' *)
| AiProcessing               (* "AI dang xu ly hinh anh cua ban..." *)
| ApplyingTitleAndWatermark. (* "Ap dung tieu de va watermark..." *)

(** The state the two handlers read and never set: the choices of the
    control panel. *)
Record settings : Type := MkSettings {
  backgroundImageFile : option File;
  watermarkFile : option File;
  backgroundOptions : BackgroundOptions;
  aspectRatio : string;
  titlePart1 : string;
  titleColor1 : string;
  titlePart2 : string;
  titleColor2 : string;
  subtitleText : string;
  subtitleColor : string;
  fontFamily : string;
  watermarkOpacity : Q;
  watermarkPosition : WatermarkPosition;
  watermarkSize : Q
}.

(** The state of the component, by the [useState] cells the two handlers
    read or set. *)
Record appState : Type := MkApp {
  controls : settings;
  imageFile : option File;
  enhancedImage : option string;
  finalImage : option string;
  loading : bool;
  loadingMessage : loadingText;
  error : option notice;
  usageStats : UsageStats
}.

Definition setEnhancedImage (v : option string) (s : appState) : appState :=
  MkApp (controls s) (imageFile s) v (finalImage s) (loading s)
        (loadingMessage s) (error s) (usageStats s).

Definition setFinalImage (v : option string) (s : appState) : appState :=
  MkApp (controls s) (imageFile s) (enhancedImage s) v (loading s)
        (loadingMessage s) (error s) (usageStats s).

Definition setLoading (v : bool) (s : appState) : appState :=
  MkApp (controls s) (imageFile s) (enhancedImage s) (finalImage s) v
        (loadingMessage s) (error s) (usageStats s).

Definition setLoadingMessage (v : loadingText) (s : appState) : appState :=
  MkApp (controls s) (imageFile s) (enhancedImage s) (finalImage s)
        (loading s) v (error s) (usageStats s).

Definition setError (v : option notice) (s : appState) : appState :=
  MkApp (controls s) (imageFile s) (enhancedImage s) (finalImage s)
        (loading s) (loadingMessage s) v (usageStats s).

Definition setUsageStats (v : UsageStats) (s : appState) : appState :=
  MkApp (controls s) (imageFile s) (enhancedImage s) (finalImage s)
        (loading s) (loadingMessage s) (error s) v.

(** [backgroundOptions.style === 'upload'] *)
Definition isUpload (v : backgroundStyle) : bool :=
  match v with
  | styleUpload => true
  | _ => false
  end.

(** [!value] on a file or [null] *)
Definition isNull (value : option File) : bool :=
  match value with
  | None => true
  | Some _ => false
  end.

(** [{ ...backgroundOptions, backgroundImage: backgroundImageFile }] *)
Definition optionsWithImage (c : settings) : BackgroundOptions :=
  MkOptions (style (backgroundOptions c)) (color1 (backgroundOptions c))
            (color2 (backgroundOptions c)) (backgroundImageFile c).

(** [err instanceof Error ? err.message : "..."] *)
Definition shown (err : thrown) : notice :=
  match err with
  | ErrorObject m => ErrorMessage m
  | NonError => UnknownError
  end.

Section WithHost.
Context `{Host}.

(** [handleEnhance].  The handler works on the values of the render it
    was created in, [s]; while it awaits [enhanceImage] other handlers
    may run, and what they do to the state is [meanwhile]; the calls
    of the setters after the [await] act on the state they left. *)
Definition handleEnhance (tz now : Z) (meanwhile : appState -> appState)
           (s : appState) (st : storage) (r : remote)
  : appState * storage * remote :=
  match imageFile s with
  | None => (setError (Some ChooseImageFirst) s, st, r)
  | Some file =>
      if isUpload (style (backgroundOptions (controls s)))
         && isNull (backgroundImageFile (controls s))
      then (setError (Some UploadBackgroundFirst) s, st, r)
      else
        let s1 := setLoading true s in
        let s1 := setError None s1 in
        let s1 := setEnhancedImage None s1 in
        let s1 := setFinalImage None s1 in
        let s1 := setLoadingMessage AiProcessing s1 in
        let '(result, r) :=
          enhanceImage file (optionsWithImage (controls s))
                       (aspectRatio (controls s)) r in
        let s2 := meanwhile s1 in
        let '(s3, st) :=
          match result with
          | Resolved base64Image =>
              let s3 :=
                setEnhancedImage
                  (Some ("data:image/png;base64," ++ base64Image)%string)
                  s2 in
              let '(st, stats) := incrementUsage tz now st in
              (setUsageStats stats s3, st)
          | Rejected err =>
              let s3 := setError (Some (shown err)) s2 in
              let s3 := setEnhancedImage None s3 in
              let s3 := setFinalImage None s3 in
              (s3, st)
          end in
        let s4 := setLoading false s3 in
        let s4 := setLoadingMessage NoText s4 in
        (s4, st, r)
  end.

(** [processImageFinalization], with [toDataURL] the PNG encoding of a
    canvas.  The promise it returns is rejected when one of the two
    steps is: the second component is then the rejection, and
    [setFinalImage] is not called. *)
Definition processImageFinalization (toDataURL : canvas -> string)
           (meanwhile : appState -> appState) (s : appState)
  : appState * option thrown :=
  match enhancedImage s with
  | None => (s, None)
  | Some enhanced =>
      if negb (truthyString enhanced) then (s, None)
      else
        let c := controls s in
        let s1 := setLoadingMessage ApplyingTitleAndWatermark s in
        let titleParts :=
          [MkPart (titlePart1 c) (titleColor1 c);
           MkPart (titlePart2 c) (titleColor2 c)] in
        let subtitleOptions :=
          MkSubtitle (subtitleText c) (subtitleColor c) in
        match applyTitle enhanced titleParts (fontFamily c)
                         (Some subtitleOptions) (aspectRatio c) with
        | Rejected e => (meanwhile s1, Some e)
        | Resolved titled =>
            let imageToProcess := toDataURL titled in
            match watermarkFile c with
            | Some file =>
                match applyWatermark imageToProcess file
                                     (watermarkOpacity c)
                                     (watermarkPosition c)
                                     (watermarkSize c) with
                | Rejected e => (meanwhile s1, Some e)
                | Resolved marked =>
                    (setFinalImage (Some (toDataURL marked))
                                   (meanwhile s1), None)
                end
            | None =>
                (setFinalImage (Some imageToProcess) (meanwhile s1),
                 None)
            end
        end
  end.

End WithHost.

End AppHandlers.
(* ===================================================================== *)
(** ** A host for the concrete instances                                  *)
(* ===================================================================== *)

(** A [Host] on which the functions can be run: [Number] on signed decimal
    integers and the empty string (every other string reads as [NaN]),
    [toUpperCase] on the letters a-z, and a fixed-pitch face whose glyphs
    are 0.6 em wide. *)
Module Sample.
Import JS.

Fixpoint digitsValue (s : string) (acc : Z) : option Z :=
  match s with
  | EmptyString => Some acc
  | String c r =>
      let n := Z.of_N (N_of_ascii c) in
      if (48 <=? n) && (n <=? 57)
      then digitsValue r (acc * 10 + (n - 48))
      else None
  end.

Definition decimalNumber (s : string) : jsnum :=
  match trim s with
  | EmptyString => Fin 0
  | String "-" (String c r) =>
      match digitsValue (String c r) 0 with
      | Some n => Fin (inject_Z (- n))
      | None => NaN
      end
  | t =>
      match digitsValue t 0 with
      | Some n => Fin (inject_Z n)
      | None => NaN
      end
  end.

Definition upper (c : ascii) : ascii :=
  let n := N_of_ascii c in
  if ((97 <=? n) && (n <=? 122))%N then ascii_of_N (n - 32) else c.

Fixpoint asciiUpperCase (s : string) : string :=
  match s with
  | EmptyString => EmptyString
  | String c r => String (upper c) (asciiUpperCase r)
  end.

Definition fixedPitch (f : font) (text : string) : Q :=
  (font_size f * (6 # 10) * inject_Z (Z.of_nat (String.length text)))%Q.

Definition host (img : option image) (ctx : bool) : Host :=
  {| Number := decimalNumber;
     toUpperCase := asciiUpperCase;
     measureText := fixedPitch;
     loadImage := fun _ => img;
     hasContext2d := ctx |}.

(** A product photo, as a file. *)
Definition photo : File :=
  MkFile "image/jpeg" (Some "data:image/jpeg;base64,/9j/4AAQSkZJRg") None.

End Sample.

(* ===================================================================== *)
(** ** Vocabulary of the properties                                       *)
(* ===================================================================== *)

Module Vocabulary.
Import JS Canvas FileUtils.





Section WithHost.
Context `{Host}.


(** [aspectRatio] splits on the colon into exactly two components that
    both read as nonzero numbers. *)
Definition twoNonzeroComponents (aspectRatio : string) : Prop :=
  exists w h,
    split ":" aspectRatio = [w; h]
    /\ truthyNumber (Some (Number w)) = true
    /\ truthyNumber (Some (Number h)) = true.

(** The first two components of [aspectRatio] both read as nonzero
    numbers; a missing component does not. *)
Definition firstTwoNonzero (aspectRatio : string) : Prop :=
  truthyNumber (List.map Number (split ":" aspectRatio) !! 0%nat) = true
  /\ truthyNumber (List.map Number (split ":" aspectRatio) !! 1%nat)
     = true.

End WithHost.

(** No segment of the title has a character other than white space. *)
Definition noTitle (titleParts : list titlePart) : Prop :=
  Forall (fun p => trim (text p) = "") titleParts.

(** No subtitle is given, or one of white space only. *)
Definition noSubtitle (subtitleOptions : option SubtitleOptions) : Prop :=
  match subtitleOptions with
  | Some o => trim (sub_text o) = ""
  | None => True
  end.

End Vocabulary.

(** What the properties of [enhanceImage] speak of. *)
Module EnhanceVocabulary.
Import JS GeminiService.

(** [fileToBase64] resolves on the file. *)
Definition readable (file : File) : Prop :=
  exists data mimeType,
    FileUtils.fileToBase64 file = Resolved (data, mimeType).

(** The product image is readable, and so is the background image when
    the style asks for one. *)
Definition inputsReadable (file : File) (options : BackgroundOptions)
  : Prop :=
  readable file
  /\ (style options = styleUpload ->
      forall f, backgroundImage options = Some f -> readable f).

(** The next call of the endpoint is answered by [response]. *)
Definition answersWith (r : remote) (response : Response) : Prop :=
  forall parts, answer r (length (received r)) parts = Responds response.

(** The first candidate of the response. *)
Definition firstCandidate (response : Response) : option Candidate :=
  match candidates response with
  | Some (candidate :: _) => Some candidate
  | _ => None
  end.

(** The part [p] is the first of [parts] with inline data, [d]. *)
Definition firstImagePart (parts : list Part) (d : inlineData) : Prop :=
  exists before p after,
    parts = (before ++ p :: after)%list
    /\ Forall (fun q => part_inlineData q = None) before
    /\ part_inlineData p = Some d.

(** The settled outcome of the [try] block seen through the [catch]. *)
Definition caught (o : outcome thrown string) : outcome thrown string :=
  match o with
  | Resolved data => Resolved data
  | Rejected e => Rejected (rethrow e)
  end.

End EnhanceVocabulary.

(** What the properties of the usage counters speak of. *)
Module CounterVocabulary.
Import App.

(** The number of the calendar day of the instant [t] in the time zone,
    counted from 1 January 1970. *)
Definition localDay (tz t : Z) : Z := JSDate.Day (JSDate.LocalTime tz t).

(** The ISO date of a day number. *)
Definition isoOfDay (n : Z) : string :=
  JSDate.dateString (JSDate.civilFromDays n).

(** The days a [Date] can hold: 100,000,000 on either side of the
    epoch. *)
Definition dayInRange (n : Z) : Prop := -100000000 <= n <= 100000000.

(** The object [incrementUsage] starts from. *)
Definition objectOf (st : storage) : statsObject :=
  match st with
  | Some (Json o) => o
  | _ => emptyObject
  end.

Definition countsOf (st : storage) : gmap string Z :=
  default ∅ (stored_dailyCounts (objectOf st)).

Definition totalOf (st : storage) : Z :=
  default 0 (stored_total (objectOf st)).

(** The stored item, if any, is not of the old shape. *)
Definition currentShape (st : storage) : Prop :=
  match st with
  | Some (Json o) => isOldShape o = false
  | _ => True
  end.

End CounterVocabulary.

(** What the further properties speak of. *)
Module ExtraVocabulary.
Import JS Canvas FileUtils.

(** The character [sep] does not occur in [s]. *)
Definition freeOf (sep : ascii) (s : string) : Prop :=
  ~ In sep (list_ascii_of_string s).

Section WithHost.
Context `{Host}.

(** The three checks [applyTitle] makes before it draws. *)
Definition accepted (src : string) (img : image) (aspectRatio : string)
  : Prop :=
  loadImage src = Some img /\ hasContext2d = true
  /\ Vocabulary.firstTwoNonzero aspectRatio.

End WithHost.

(** The shadow colour under which the top layer of a title segment is
    drawn. *)
Definition dropShadow : string := "rgba(0, 0, 0, 0.75)".

(** The text calls issued under the drop shadow of the title. *)
Definition isTopLayer (call : drawCall) : bool :=
  isFillText call && String.eqb (st_shadowColor (snd call)) dropShadow.

(** What a text call shows: the text, its position and its fill
    style. *)
Definition shownText (call : drawCall)
  : option (string * Q * Q * string) :=
  match fst call with
  | FillText t x y => Some (t, x, y, st_fillStyle (snd call))
  | _ => None
  end.

Section Layout.
Context `{Host}.

(** The segments laid out from [x] on the line [y] under the font [f]:
    each after the previous one and one space. *)
Fixpoint layout (f : font) (y x : Q) (parts : list titlePart)
  : list (string * Q * Q * string) :=
  match parts with
  | [] => []
  | part :: rest =>
      let t := toUpperCase (text part) in
      let next := (x + measureText f t)%Q in
      let next :=
        match rest with
        | [] => next
        | _ => (next + measureText f " ")%Q
        end in
      (t, x, y, color part) :: layout f y next rest
  end.

(** The number of extrusion layers at a font size. *)
Definition layersAt (fontSize : Z) : Z :=
  Z.max 2 (Qceiling (inject_Z fontSize / 35)).

End Layout.

(** The number of [fillText] calls among the calls. *)
Definition textCalls (calls : list drawCall) : nat :=
  length (List.filter isFillText calls).

(** The year and the month of a day number. *)
Definition monthOfDay (n : Z) : Z * Z :=
  let '(y, m, _) := JSDate.civilFromDays n in (y, m).

(** The year of the day is written with four digits. *)
Definition fourDigitYear (n : Z) : Prop :=
  0 <= fst (monthOfDay n) <= 9999.

(** The instants of [times] that fall on the local day [n]. *)
Definition onDay (tz n : Z) (times : list Z) : list Z :=
  List.filter (fun t => CounterVocabulary.localDay tz t =? n) times.

(** The instants of [times] that fall in the local month of [now]. *)
Definition inMonthOf (tz now : Z) (times : list Z) : list Z :=
  List.filter
    (fun t =>
       let '(y, m) := monthOfDay (CounterVocabulary.localDay tz t) in
       let '(y', m') := monthOfDay (CounterVocabulary.localDay tz now) in
       (y =? y') && (m =? m'))
    times.

Section Reading.
Context `{Host}.

(** [Number] reads the string [s] as the integer [n]. *)
Definition readsAs (s : string) (n : Z) : Prop :=
  exists q, Number s = Fin q /\ (q == inject_Z n)%Q.

(** [Number] reads the year and the month of an ISO date: four
    digits as the year, two digits as the month. *)
Definition readsDates : Prop :=
  (forall y, 0 <= y <= 9999 -> readsAs (JSDate.digits 4 y) y)
  /\ (forall m, 1 <= m <= 12 -> readsAs (JSDate.digits 2 m) m).

(** The test of the month loop of [calculateStats] on a key. *)
Definition inMonthKey (currentYear currentMonth : Z) (dateStr : string)
  : bool :=
  let nums := List.map Number (split "-" dateStr) in
  let year := default NaN (nums !! 0%nat) in
  let month := default NaN (nums !! 1%nat) in
  strictEq year (Fin (inject_Z currentYear))
  && strictEq (sub month (Fin 1)) (Fin (inject_Z currentMonth)).

End Reading.

(** One of the two checks of [handleEnhance] stops it: no product
    image, or the style of an uploaded background without a background
    image. *)
Definition stoppedByChecks (s : AppHandlers.appState) : Prop :=
  AppHandlers.imageFile s = None
  \/ (GeminiService.style
        (AppHandlers.backgroundOptions (AppHandlers.controls s))
      = GeminiService.styleUpload
      /\ AppHandlers.backgroundImageFile (AppHandlers.controls s) = None).

(** The request [handleEnhance] makes for the product image [file]. *)
Definition enhancementOf (s : AppHandlers.appState) (file : File)
           (r : GeminiService.remote)
  : outcome thrown string * GeminiService.remote :=
  GeminiService.enhanceImage
    file (AppHandlers.optionsWithImage (AppHandlers.controls s))
    (AppHandlers.aspectRatio (AppHandlers.controls s)) r.

(** The title segments and the subtitle of the control panel. *)
Definition titlePartsOf (c : AppHandlers.settings) : list titlePart :=
  [MkPart (AppHandlers.titlePart1 c) (AppHandlers.titleColor1 c);
   MkPart (AppHandlers.titlePart2 c) (AppHandlers.titleColor2 c)].

Definition subtitleOf (c : AppHandlers.settings) : SubtitleOptions :=
  MkSubtitle (AppHandlers.subtitleText c) (AppHandlers.subtitleColor c).

(** The image has the size of the canvas. *)
Definition sizeOf (c : canvas) (img : image) : Prop :=
  Z.pos (naturalWidth img) = canvas_width c
  /\ Z.pos (naturalHeight img) = canvas_height c.



End ExtraVocabulary.

(** Files for the concrete instances. *)
Module ExtraSample.

(** A logo four times as wide as high. *)
Definition logoFile : File :=
  MkFile "image/png" (Some "data:image/png;base64,iVBORw0")
         (Some (MkImage 400 100)).

(** A file the reader fails on. *)
Definition brokenFile : File := MkFile "image/png" None None.

(** An encoding of a canvas that keeps its size, and its decoding; any
    other source decodes to a picture of 1600 by 1200. *)
Definition encodeSize (c : Canvas.canvas) : string :=
  (JSDate.digits 5 (Canvas.canvas_width c) ++ "x"
   ++ JSDate.digits 5 (Canvas.canvas_height c))%string.

Definition decodeSize (src : string) : option image :=
  match JS.split "x" src with
  | [w; h] =>
      match Sample.digitsValue w 0, Sample.digitsValue h 0 with
      | Some (Z.pos w), Some (Z.pos h) => Some (MkImage w h)
      | _, _ => Some (MkImage 1600 1200)
      end
  | _ => Some (MkImage 1600 1200)
  end.

Definition sizeHost : Host :=
  {| Number := Sample.decimalNumber;
     toUpperCase := Sample.asciiUpperCase;
     measureText := Sample.fixedPitch;
     loadImage := decodeSize;
     hasContext2d := true |}.

Definition panel (background watermark : option File)
           (v : GeminiService.backgroundStyle) : AppHandlers.settings :=
  AppHandlers.MkSettings
    background watermark
    (GeminiService.MkOptions v (Some "#4ade80") (Some "#3b82f6") None)
    "1:1" "Summer" "#FFFFFF" "Sale" "#FFD700" "" "#FFFFFF" "Oswald"
    (1 # 2) FileUtils.bottomRight (15 # 100).

Definition idle (c : AppHandlers.settings) (file : option File)
           (enhanced : option string) : AppHandlers.appState :=
  AppHandlers.MkApp c file enhanced None false AppHandlers.NoText None
                    (App.MkUsage 0 0 0 0 0).

End ExtraSample.

(* ===================================================================== *)
(** * Properties                                                          *)
(* ===================================================================== *)

(** ** The embedding on concrete inputs *)

Section Checks.
Import JS Canvas FileUtils GeminiService App.

Example split_aspect_ratios :
  split ":" "16:9" = ["16"; "9"] /\ split ":" "abc" = ["abc"]
  /\ split ":" "16:" = ["16"; ""] /\ split ":" "1:2:3" = ["1"; "2"; "3"].
Proof. repeat split; reflexivity. Qed.

Example trim_white_space :
  trim "  Big sale " = "Big sale" /\ trim "   " = "" /\ trim "" = "".
Proof. repeat split; reflexivity. Qed.

Example fileToBase64_photo :
  fileToBase64 Sample.photo = Resolved ("/9j/4AAQSkZJRg", "image/jpeg")
  /\ fileToBase64 (MkFile "image/png" (Some "no comma") None)
     = Rejected (ErrorObject FailedToReadBase64)
  /\ fileToBase64 (MkFile "image/png" None None) = Rejected NonError.
Proof. repeat split; reflexivity. Qed.

(** The three malformed ratios of the interface are rejected. *)
Example malformed_ratios_rejected :
  let host := Sample.host (Some (MkImage 1600 1200)) true in
  @applyTitle host "img" [] "Oswald" None "abc"
  = Rejected (ErrorObject InvalidAspectRatioFormat)
  /\ @applyTitle host "img" [] "Oswald" None "16:"
     = Rejected (ErrorObject InvalidAspectRatioFormat)
  /\ @applyTitle host "img" [] "Oswald" None "0:5"
     = Rejected (ErrorObject InvalidAspectRatioFormat).
Proof. repeat split; reflexivity. Qed.

(** Failures before the aspect ratio is read. *)
Example applyTitle_early_failures :
  @applyTitle (Sample.host None true) "img" [] "Oswald" None "1:1"
  = Rejected NonError
  /\ @applyTitle (Sample.host (Some (MkImage 1600 1200)) false)
                 "img" [] "Oswald" None "abc"
     = Rejected (ErrorObject NoCanvasContext).
Proof. split; reflexivity. Qed.

Example font_sizes :
  let host := Sample.host None false in
  @titleFontSizeOf host "Oswald" "HELLO" 1000 = 200
  /\ @titleFontSizeOf host "Oswald" "HELLO" 400 = 106
  /\ @titleFontSizeOf host "Oswald" "HELLO" 100 = 10.
Proof. repeat split; reflexivity. Qed.

Example iso_strings :
  JSDate.toISOString 0 = "1970-01-01T00:00:00.000Z"
  /\ JSDate.toISOString 1704139200000 = "2024-01-01T20:00:00.000Z"
  /\ JSDate.toISOString (-1) = "1969-12-31T23:59:59.999Z"
  /\ JSDate.toISOString 253402300800000 = "+010000-01-01T00:00:00.000Z".
Proof. repeat split; reflexivity. Qed.

(** Leap day, and the last day of the previous month by [setDate(0)]. *)
Example calendar_days :
  JSDate.civilFromDays 19782 = (2024, 2, 29)
  /\ JSDate.daysFromCivil 2024 3 0 = 19782
  /\ JSDate.toISOString (JSDate.setDate (-420) 1704139200000 0)
     = "2023-12-30T20:00:00.000Z".
Proof. repeat split; reflexivity. Qed.

(** The local and the UTC date differ in the first seven hours of the
    day in a zone seven hours ahead of UTC. *)
Example local_and_utc_date :
  getISODateString (-420) 1704139200000 = "2024-01-02"
  /\ getISODateString 0 1704139200000 = "2024-01-01".
Proof. split; reflexivity. Qed.

Example blocked_for_safety :
  readResponse (MkResponse (Some [MkCandidate (Some "SAFETY") None]))
  = Rejected (ErrorObject (RequestBlocked "SAFETY")).
Proof. reflexivity. Qed.

End Checks.

(** ** Rational arithmetic of the embedding *)

Section Rationals.
Import JS.



Lemma Qtrunc_nonneg (q : Q) : (0 <= q)%Q -> Qtrunc q = Qfloor q.
Proof.
  intros Hq. unfold Qtrunc.
  apply Qle_bool_iff in Hq. now rewrite Hq.
Qed.

Lemma Qfloor_bounds (q : Q) (hi : Z) :
  (0 <= q)%Q -> (q <= inject_Z hi)%Q -> 0 <= Qfloor q <= hi.
Proof.
  intros Hlo Hhi. split.
  - change 0 with (Qfloor (inject_Z 0)). rewrite Qfloor_Z.
    rewrite <- (Qfloor_Z 0). now apply Qfloor_resp_le.
  - rewrite <- (Qfloor_Z hi). now apply Qfloor_resp_le.
Qed.

(** Storing a value between 0 and 2^31-1 in a canvas dimension rounds
    it down. *)
Lemma setDimension_floor (dflt : Z) (q : Q) (hi : Z) :
  (0 <= q)%Q -> (q <= inject_Z hi)%Q -> hi <= 2147483647 ->
  Canvas.setDimension dflt q = Qfloor q.
Proof.
  intros Hlo Hhi Hbound.
  destruct (Qfloor_bounds q hi Hlo Hhi) as [H0 H1].
  unfold Canvas.setDimension. rewrite (Qtrunc_nonneg q Hlo).
  rewrite Z.mod_small by lia.
  destruct (Qfloor q <=? 2147483647) eqn:E; [reflexivity|].
  apply Z.leb_gt in E. lia.
Qed.

Lemma px_pos (p : positive) : (0 < FileUtils.px p)%Q.
Proof. unfold FileUtils.px, Qlt. simpl. lia. Qed.

End Rationals.

(** ** [applyTitle]: the crop *)

Section Crop.
Import JS Canvas FileUtils Vocabulary.


End Crop.

(** ** [applyTitle]: the drawing calls *)

Section Calls.
Import JS Canvas FileUtils Vocabulary.
Context `{Host}.













End Calls.

(** ** [applyTitle]: guards, font search, text-free output *)

Section ApplyTitle.
Import JS Canvas FileUtils Vocabulary.
Context `{Host}.

Lemma fontLoop_spec (fits : Z -> bool) (fuel : nat) (fs : Z) :
  10 <= fs -> (Z.to_nat (fs - 10) <= fuel)%nat ->
  10 <= fontLoop fits fuel fs <= fs
  /\ (10 < fontLoop fits fuel fs -> fits (fontLoop fits fuel fs) = true)
  /\ (forall s, fontLoop fits fuel fs < s <= fs -> fits s = false).
Proof.
  revert fs. induction fuel as [|fuel IH]; intros fs Hlo Hfuel.
  - assert (fs = 10) by lia. subst fs. cbn. repeat split; lia.
  - cbn [fontLoop]. destruct (10 <? fs) eqn:Egt.
    + apply Z.ltb_lt in Egt.
      destruct (fits fs) eqn:Efit.
      * repeat split; try lia. intros _. exact Efit.
      * destruct (IH (fs - 1)) as (Hr & Hfit & Hfail); [lia | lia |].
        repeat split; try lia; [exact Hfit|].
        intros s Hs. destruct (Z.eq_dec s fs) as [->|Hne]; [exact Efit|].
        apply Hfail. lia.
    + apply Z.ltb_ge in Egt. repeat split; try lia.
Qed.

(** The search started at 200 with 190 steps runs to its end. *)
Lemma titleFontSizeOf_spec (family fullText : string) (cw : Z) :
  let s := titleFontSizeOf family fullText cw in
  10 <= s <= 200
  /\ (10 < s -> fitsAt family fullText (cw - 80) s = true)
  /\ (forall s', s < s' <= 200 -> fitsAt family fullText (cw - 80) s' = false).
Proof.
  unfold titleFontSizeOf. apply fontLoop_spec; [lia|].
  change (Z.to_nat (200 - 10)) with 190%nat. lia.
Qed.

Lemma applyTitle_accepted (src : string) (img : image)
      (parts : list titlePart) (family : string)
      (sub : option SubtitleOptions) (ar : string) :
  loadImage src = Some img -> hasContext2d = true ->
  truthyNumber (List.map Number (split ":" ar) !! 0%nat) = true ->
  truthyNumber (List.map Number (split ":" ar) !! 1%nat) = true ->
  applyTitle src parts family sub ar
  = Resolved (compose img
                      (valueOf (List.map Number (split ":" ar) !! 0%nat))
                      (valueOf (List.map Number (split ":" ar) !! 1%nat))
                      parts family sub).
Proof.
  intros Himg Hctx Hw Hh. unfold applyTitle.
  rewrite Himg, Hctx. cbn [negb]. cbv zeta. now rewrite Hw, Hh.
Qed.

Lemma compose_width img tw th parts family sub :
  canvas_width (compose img tw th parts family sub)
  = setDimension 300 (sourceWidth (cropFor img tw th)).
Proof.
  unfold compose. cbv zeta.
  destruct (negb _ && negb _); [reflexivity|].
  destruct (if (0 <? _)%nat then _ else _) as [s c]. reflexivity.
Qed.

Lemma compose_height img tw th parts family sub :
  canvas_height (compose img tw th parts family sub)
  = setDimension 150 (sourceHeight (cropFor img tw th)).
Proof.
  unfold compose. cbv zeta.
  destruct (negb _ && negb _); [reflexivity|].
  destruct (if (0 <? _)%nat then _ else _) as [s c]. reflexivity.
Qed.


Lemma blank_parts_invalid (parts : list titlePart) :
  Forall (fun p => trim (text p) = "") parts -> validPartsOf parts = [].
Proof.
  unfold validPartsOf. induction 1 as [|p l Hp _ IH]; [reflexivity|].
  cbn [List.filter]. rewrite Hp. cbn.
  rewrite Bool.andb_false_r. exact IH.
Qed.

End ApplyTitle.

(** ** [applyTitle]: the claims *)

Section ApplyTitleClaims.
Import JS Canvas FileUtils Vocabulary.
Context `{Host}.


(** C7.  When the image is decoded, a context obtained and the aspect
    ratio accepted, a title without a non-blank segment and no non-blank
    subtitle make [applyTitle] resolve with the canvas on which the
    centred crop alone was drawn: one [drawImage] call and no text. *)
Theorem applyTitle_without_text
        (src : string) (img : image) (parts : list titlePart)
        (family : string) (sub : option SubtitleOptions) (ar : string) :
  loadImage src = Some img -> hasContext2d = true ->
  firstTwoNonzero ar ->
  noTitle parts -> noSubtitle sub ->
  let crop :=
    cropFor img (valueOf (List.map Number (split ":" ar) !! 0%nat))
            (valueOf (List.map Number (split ":" ar) !! 1%nat)) in
  exists c,
    applyTitle src parts family sub ar = Resolved c
    /\ canvas_width c = setDimension 300 (sourceWidth crop)
    /\ canvas_height c = setDimension 150 (sourceHeight crop)
    /\ canvas_calls c
       = [(DrawImageSub BaseImage (sourceX crop) (sourceY crop)
                        (sourceWidth crop) (sourceHeight crop) 0 0
                        (inject_Z (canvas_width c))
                        (inject_Z (canvas_height c)),
           initialState)]
    /\ List.filter isFillText (canvas_calls c) = [].
Proof.
  intros Himg Hctx [Hw Hh] Hparts Hsub crop.
  eexists. split; [apply applyTitle_accepted; eassumption|].
  fold crop. unfold compose. fold crop. cbv zeta.
  rewrite (blank_parts_invalid parts Hparts).
  assert (Hs : hasSubtitleOf sub = false).
  { destruct sub as [o|]; [|reflexivity]. cbn in Hsub |- *.
    now rewrite Hsub. }
  rewrite Hs. cbn. repeat split; reflexivity.
Qed.

(** C10 (as amended).  When the first two colon-separated components of
    the aspect ratio do not both read as nonzero numbers, [applyTitle]
    never resolves with an image, and, once the image is decoded and a
    context obtained, it rejects with the invalid-aspect-ratio-format
    error, which carries no canvas: no drawing call was issued. *)
Theorem applyTitle_rejects_aspect_ratio
        (src : string) (parts : list titlePart) (family : string)
        (sub : option SubtitleOptions) (ar : string) :
  ~ firstTwoNonzero ar ->
  (forall c, applyTitle src parts family sub ar <> Resolved c)
  /\ (forall img, loadImage src = Some img -> hasContext2d = true ->
                  applyTitle src parts family sub ar
                  = Rejected (ErrorObject InvalidAspectRatioFormat)).
Proof.
  intros Hbad.
  assert (Hguard :
            negb (truthyNumber (List.map Number (split ":" ar) !! 0%nat))
            || negb (truthyNumber (List.map Number (split ":" ar) !! 1%nat))
            = true).
  { unfold firstTwoNonzero in Hbad.
    destruct (truthyNumber (_ !! 0%nat)); [|reflexivity].
    destruct (truthyNumber (_ !! 1%nat)); [|reflexivity].
    exfalso. apply Hbad. split; reflexivity. }
  unfold applyTitle. split.
  - intros c. destruct (loadImage src); [|discriminate].
    destruct hasContext2d; cbn [negb]; [|discriminate].
    cbv zeta. rewrite Hguard. discriminate.
  - intros img -> ->. cbn [negb]. cbv zeta. now rewrite Hguard.
Qed.

End ApplyTitleClaims.

(** ** [applyTitle]: the crop to the aspect ratio *)

Section CropClaim.
Import JS Canvas FileUtils Vocabulary.
Context `{Host}.




End CropClaim.

(** ** [applyWatermark] *)

Section Watermark.
Import JS Canvas FileUtils Vocabulary.
Context `{Host}.

(** C6.  For a base image of at most 2^31-1 pixels a side, once both
    images are decoded and a context obtained, [applyWatermark] resolves
    with a canvas of the size of the base image on which the base image
    and then the watermark are drawn; the watermark is [size] times the
    base width wide, its height is that width divided by its natural
    aspect ratio, so that width and height are in the proportion of its
    natural width and height; and it lies 20 pixels from the two edges of
    the requested corner. *)
Theorem applyWatermark_geometry
        (src : string) (baseImage watermarkImage : image)
        (watermarkFile : File) (opacity : Q)
        (position : WatermarkPosition) (size : Q) :
  loadImage src = Some baseImage ->
  file_image watermarkFile = Some watermarkImage ->
  hasContext2d = true ->
  Z.pos (naturalWidth baseImage) <= 2147483647 ->
  Z.pos (naturalHeight baseImage) <= 2147483647 ->
  exists c x y w h st,
    applyWatermark src watermarkFile opacity position size = Resolved c
    /\ canvas_width c = Z.pos (naturalWidth baseImage)
    /\ canvas_height c = Z.pos (naturalHeight baseImage)
    /\ canvas_calls c
       = [(DrawImageAt BaseImage 0 0, initialState);
          (DrawImageScaled WatermarkImage x y w h, st)]
    /\ (w == size * px (naturalWidth baseImage))%Q
    /\ (h == w / (px (naturalWidth watermarkImage)
                  / px (naturalHeight watermarkImage)))%Q
    /\ (w * px (naturalHeight watermarkImage)
        == h * px (naturalWidth watermarkImage))%Q
    /\ match position with
       | topLeft => (x == 20 /\ y == 20)%Q
       | topRight =>
           (inject_Z (canvas_width c) - (x + w) == 20 /\ y == 20)%Q
       | bottomLeft =>
           (x == 20 /\ inject_Z (canvas_height c) - (y + h) == 20)%Q
       | bottomRight =>
           (inject_Z (canvas_width c) - (x + w) == 20
            /\ inject_Z (canvas_height c) - (y + h) == 20)%Q
       end.
Proof.
  intros Hbase Hwm Hctx HW HH.
  pose proof (px_pos (naturalWidth watermarkImage)) as Hww.
  pose proof (px_pos (naturalHeight watermarkImage)) as Hwh.
  pose proof (px_pos (naturalWidth baseImage)) as Hbw.
  pose proof (px_pos (naturalHeight baseImage)) as Hbh.
  assert (Ecw : setDimension 300 (px (naturalWidth baseImage))
                = Z.pos (naturalWidth baseImage)).
  { rewrite (setDimension_floor _ _ (Z.pos (naturalWidth baseImage)));
      [apply Qfloor_Z | lra | apply Qle_refl | lia]. }
  assert (Ech : setDimension 150 (px (naturalHeight baseImage))
                = Z.pos (naturalHeight baseImage)).
  { rewrite (setDimension_floor _ _ (Z.pos (naturalHeight baseImage)));
      [apply Qfloor_Z | lra | apply Qle_refl | lia]. }
  unfold applyWatermark. rewrite Hbase, Hwm, Hctx. cbn [negb]. cbv zeta.
  rewrite Ecw, Ech.
  set (p := placeWatermark _ _ _ _ _ _).
  exists (MkCanvas (Z.pos (naturalWidth baseImage))
                   (Z.pos (naturalHeight baseImage))
                   (ctx_calls
                      (issue (DrawImageScaled WatermarkImage (wm_x p) (wm_y p)
                                              (watermarkWidth p)
                                              (watermarkHeight p))
                             (setGlobalAlpha opacity
                                (issue (DrawImageAt BaseImage 0 0)
                                       newContext))))).
  exists (wm_x p), (wm_y p), (watermarkWidth p), (watermarkHeight p).
  eexists. split; [reflexivity|].
  split; [reflexivity|]. split; [reflexivity|].
  split; [reflexivity|].
  cbn [canvas_width canvas_height].
  fold (px (naturalWidth baseImage)) (px (naturalHeight baseImage)).
  unfold p, placeWatermark, padding.
  fold (px (naturalWidth baseImage)) (px (naturalHeight baseImage)).
  set (W := px (naturalWidth baseImage)) in *.
  set (Hh := px (naturalHeight baseImage)) in *.
  set (a := px (naturalWidth watermarkImage)) in *.
  set (b := px (naturalHeight watermarkImage)) in *.
  destruct position;
    cbn [wm_x wm_y watermarkWidth watermarkHeight];
    (split; [ring|]); (split; [reflexivity|]);
    (split; [field; lra|]); split; ring.
Qed.

End Watermark.

(** ** Instances on the sample host *)

Section FileUtilsInstances.
Import JS Canvas FileUtils Vocabulary.



Lemma applyTitle_without_text_witness :
  let host := Sample.host (Some (MkImage 1600 1200)) true in
  let parts := [MkPart "" "#FFFFFF"; MkPart "  " "#FFD700"] in
  let sub := Some (MkSubtitle " " "#FFFFFF") in
  noTitle parts /\ noSubtitle sub
  /\ exists c,
       @applyTitle host "img" parts "Oswald" sub "16:9" = Resolved c
       /\ canvas_width c = 1600 /\ canvas_height c = 900
       /\ List.filter isFillText (canvas_calls c) = [].
Proof.
  intros host parts sub.
  assert (Hparts : noTitle parts) by (repeat constructor).
  assert (Hsub : noSubtitle sub) by reflexivity.
  split; [exact Hparts|]. split; [exact Hsub|].
  destruct (@applyTitle_without_text
              host "img" (MkImage 1600 1200) parts "Oswald" sub "16:9")
    as (c & Hc & Hw & Hh & _ & Hnone).
  - reflexivity.
  - reflexivity.
  - split; reflexivity.
  - exact Hparts.
  - exact Hsub.
  - exists c. split; [exact Hc|]. split; [exact Hw|].
    split; [exact Hh | exact Hnone].
Defined.

Lemma applyTitle_rejects_aspect_ratio_witness :
  let host := Sample.host (Some (MkImage 1600 1200)) true in
  ~ @firstTwoNonzero host "16:"
  /\ @applyTitle host "img" [MkPart "Big" "#FFFFFF"] "Oswald" None "16:"
     = Rejected (ErrorObject InvalidAspectRatioFormat).
Proof.
  intros host.
  assert (Hbad : ~ @firstTwoNonzero host "16:").
  { intros [_ Hh]. vm_compute in Hh. discriminate. }
  split; [exact Hbad|].
  apply (proj2 (@applyTitle_rejects_aspect_ratio
                  host "img" [MkPart "Big" "#FFFFFF"] "Oswald" None "16:"
                  Hbad)
               (MkImage 1600 1200)); reflexivity.
Defined.

(** C10, as stated, fails: 1:2:3 does not split into two components,
    and is accepted with the ratio 1:2. *)
Lemma three_components_accepted :
  let host := Sample.host (Some (MkImage 1600 1200)) true in
  ~ @twoNonzeroComponents host "1:2:3"
  /\ exists c,
       @applyTitle host "img" [] "Oswald" None "1:2:3" = Resolved c
       /\ canvas_width c = 600 /\ canvas_height c = 1200.
Proof.
  intros host. split.
  - intros (w & h & Hsplit & _). vm_compute in Hsplit. discriminate.
  - eexists. split; [apply applyTitle_accepted; reflexivity|].
    rewrite compose_width, compose_height. split; reflexivity.
Qed.


Lemma applyWatermark_geometry_witness :
  let host := Sample.host (Some (MkImage 1600 1200)) true in
  let logo := MkFile "image/png" (Some "data:image/png;base64,iVBORw0")
                     (Some (MkImage 400 100)) in
  exists c x y w h st,
    @applyWatermark host "img" logo (1 # 2) bottomRight (15 # 100)
    = Resolved c
    /\ canvas_calls c
       = [(DrawImageAt BaseImage 0 0, initialState);
          (DrawImageScaled WatermarkImage x y w h, st)]
    /\ (w == 240)%Q
    /\ (inject_Z (canvas_width c) - (x + w) == 20)%Q
    /\ (inject_Z (canvas_height c) - (y + h) == 20)%Q.
Proof.
  intros host logo.
  destruct (@applyWatermark_geometry
              host "img" (MkImage 1600 1200) (MkImage 400 100) logo
              (1 # 2) bottomRight (15 # 100))
    as (c & x & y & w & h & st & Hc & _ & _ & Hcalls & Hw & _ & _ & Hx & Hy).
  - reflexivity.
  - reflexivity.
  - reflexivity.
  - cbn. lia.
  - cbn. lia.
  - exists c, x, y, w, h, st.
    split; [exact Hc|]. split; [exact Hcalls|].
    split; [rewrite Hw; reflexivity|]. split; [exact Hx | exact Hy].
Defined.

End FileUtilsInstances.

(** ** [enhanceImage] *)

Section EnhanceImage.
Import JS GeminiService EnhanceVocabulary.

Lemma truthyString_true (s : string) : truthyString s = true <-> s <> "".
Proof.
  unfold truthyString. rewrite Bool.negb_true_iff.
  split.
  - intros E ->. discriminate.
  - intros Hne. apply String.eqb_neq. exact Hne.
Qed.

Lemma isBlocked_iff (candidate : Candidate) :
  isBlocked candidate = true
  <-> exists reason,
        finishReason candidate = Some reason
        /\ reason <> "" /\ reason <> "STOP" /\ reason <> "MAX_TOKENS".
Proof.
  unfold isBlocked. destruct (finishReason candidate) as [reason|].
  - rewrite !Bool.andb_true_iff, !Bool.negb_true_iff, !String.eqb_neq.
    rewrite truthyString_true. split.
    + intros [[H1 H2] H3]. exists reason. auto.
    + intros (r & Hr & H1 & H2 & H3). injection Hr as <-. auto.
  - split; [discriminate|]. intros (r & Hr & _). discriminate.
Qed.




Lemma enhanceImage_caught file options ar rem :
  enhanceImage file options ar rem
  = (caught (fst (tryEnhance file options ar rem)),
     snd (tryEnhance file options ar rem)).
Proof.
  unfold enhanceImage. destruct (tryEnhance file options ar rem) as [[d|e] r'];
    reflexivity.
Qed.

(** With readable inputs the endpoint is called once and its response
    read. *)
Lemma tryEnhance_answered file options ar rem response :
  inputsReadable file options -> answersWith rem response ->
  exists parts,
    tryEnhance file options ar rem
    = (readResponse response,
       MkRemote (answer rem) (received rem ++ [parts])%list).
Proof.
  intros [(d & m & Hfile) Hbg] Hanswer. unfold tryEnhance.
  rewrite Hfile.
  destruct (style options) eqn:Es;
    try (unfold generateContent; rewrite Hanswer; eexists; reflexivity).
  destruct (backgroundImage options) as [f|] eqn:Eb;
    try (unfold generateContent; rewrite Hanswer; eexists; reflexivity).
  destruct (Hbg eq_refl f eq_refl) as (d' & m' & Hf). rewrite Hf.
  unfold generateContent. rewrite Hanswer. eexists. reflexivity.
Qed.

Lemma enhanceImage_answered file options ar rem response :
  inputsReadable file options -> answersWith rem response ->
  fst (enhanceImage file options ar rem) = caught (readResponse response).
Proof.
  intros Hin Hans.
  destruct (tryEnhance_answered file options ar rem response Hin Hans)
    as (parts & E).
  rewrite enhanceImage_caught, E. reflexivity.
Qed.

Lemma readResponse_blocked_iff (response : Response) (reason : string) :
  readResponse response = Rejected (ErrorObject (RequestBlocked reason))
  <-> exists candidate,
        firstCandidate response = Some candidate
        /\ finishReason candidate = Some reason
        /\ reason <> "" /\ reason <> "STOP" /\ reason <> "MAX_TOKENS".
Proof.
  unfold readResponse, firstCandidate.
  destruct (candidates response) as [[|candidate rest]|].
  - split; [discriminate|]. intros (c & Hc & _). discriminate.
  - destruct (isBlocked candidate) eqn:Eb.
    + apply isBlocked_iff in Eb.
      destruct Eb as (r & Hr & H1 & H2 & H3). rewrite Hr. cbn [default].
      split.
      * intros E. injection E as <-. exists candidate. auto.
      * intros (c & Hc & Hr' & _). injection Hc as <-.
        rewrite Hr in Hr'. injection Hr' as <-. reflexivity.
    + split.
      * destruct (contentParts candidate) as [parts|]; [|discriminate].
        destruct (firstInlineData parts); [discriminate|].
        destruct (0 <? _)%nat; discriminate.
      * intros (c & Hc & Hrest). injection Hc as <-.
        assert (isBlocked candidate = true) by (apply isBlocked_iff; eauto).
        congruence.
  - split; [discriminate|]. intros (c & Hc & _). discriminate.
Qed.

(** C3 (as amended).  With readable inputs and an endpoint that answers
    with [response], [enhanceImage] fails with the blocked-request error
    for [reason] exactly when the first candidate carries the finish
    reason [reason] and [reason] is neither empty, nor STOP, nor
    MAX_TOKENS. *)
Theorem enhanceImage_blocked_iff
        (file : File) (options : BackgroundOptions) (ar : string)
        (rem : remote) (response : Response) (reason : string) :
  inputsReadable file options -> answersWith rem response ->
  fst (enhanceImage file options ar rem)
  = Rejected (ErrorObject (GeminiApiError (RequestBlocked reason)))
  <-> exists candidate,
        firstCandidate response = Some candidate
        /\ finishReason candidate = Some reason
        /\ reason <> "" /\ reason <> "STOP" /\ reason <> "MAX_TOKENS".
Proof.
  intros Hin Hans.
  rewrite (enhanceImage_answered file options ar rem response Hin Hans).
  rewrite <- readResponse_blocked_iff.
  destruct (readResponse response) as [d|[m|]]; cbn.
  - split; discriminate.
  - split; intros E; injection E as E; now rewrite E.
  - split; discriminate.
Qed.

End EnhanceImage.

Section EnhanceImageOutcomes.
Import JS GeminiService EnhanceVocabulary.





End EnhanceImageOutcomes.

Section EnhanceImageInstances.
Import JS GeminiService EnhanceVocabulary Sample.

Lemma photo_readable : inputsReadable photo (MkOptions styleDefault None None None).
Proof.
  split.
  - exists "/9j/4AAQSkZJRg", "image/jpeg". reflexivity.
  - discriminate.
Qed.

Lemma enhanceImage_blocked_iff_witness :
  let response :=
    MkResponse (Some [MkCandidate (Some "SAFETY") None]) in
  let rem := MkRemote (fun _ _ => Responds response) [] in
  fst (enhanceImage photo (MkOptions styleDefault None None None) "1:1" rem)
  = Rejected (ErrorObject (GeminiApiError (RequestBlocked "SAFETY"))).
Proof.
  intros response rem.
  apply (proj2 (enhanceImage_blocked_iff
                  photo (MkOptions styleDefault None None None) "1:1" rem
                  response "SAFETY" photo_readable
                  (fun _ => eq_refl))).
  exists (MkCandidate (Some "SAFETY") None).
  repeat split; discriminate.
Defined.

(** C3, as stated, fails: a first candidate that stopped at the length
    limit carries a finish reason other than the normal stop, and its
    image is returned. *)
Lemma length_limit_not_blocked :
  let response :=
    MkResponse
      (Some [MkCandidate
               (Some "MAX_TOKENS")
               (Some [MkRespPart (Some (MkInline "iVBORw0KGgo" "image/png"))
                                 None])]) in
  let rem := MkRemote (fun _ _ => Responds response) [] in
  (exists candidate,
      firstCandidate response = Some candidate
      /\ finishReason candidate = Some "MAX_TOKENS"
      /\ "MAX_TOKENS" <> "STOP")
  /\ fst (enhanceImage photo (MkOptions styleDefault None None None) "1:1"
                       rem)
     = Resolved "iVBORw0KGgo"
  /\ fst (enhanceImage photo (MkOptions styleDefault None None None) "1:1"
                       rem)
     <> Rejected (ErrorObject (GeminiApiError (RequestBlocked "MAX_TOKENS"))).
Proof.
  intros response rem. split; [|split].
  - eexists. split; [reflexivity|]. split; [reflexivity | discriminate].
  - reflexivity.
  - discriminate.
Qed.


End EnhanceImageInstances.

(** ** The calendar of the built-in [Date] *)

Section Calendar.
Import JSDate.

Lemma civil_yoe_bounds (doe : Z) :
  0 <= doe <= 146096 ->
  0 <= (doe - doe / 1460 + doe / 36524 - doe / 146096) / 365 <= 399.
Proof. intros Hdoe. Z.to_euclidean_division_equations. lia. Qed.

Lemma civil_doy_bounds (doe : Z) :
  0 <= doe <= 146096 ->
  let yoe := (doe - doe / 1460 + doe / 36524 - doe / 146096) / 365 in
  0 <= doe - (365 * yoe + yoe / 4 - yoe / 100) <= 365.
Proof. intros Hdoe. cbv zeta. Z.to_euclidean_division_equations. lia. Qed.

Lemma civil_month_day_bounds (doy : Z) :
  0 <= doy <= 365 ->
  let mp := (5 * doy + 2) / 153 in
  0 <= mp <= 11 /\ 1 <= doy - (153 * mp + 2) / 5 + 1 <= 31.
Proof. intros Hdoy. cbv zeta. Z.to_euclidean_division_equations. lia. Qed.

(** The fields of a calendar date are in range. *)
Lemma civilFromDays_range (z : Z) :
  let '(y, m, d) := civilFromDays z in
  1 <= m <= 12 /\ 1 <= d <= 31
  /\ (z + 719468) / 146097 * 400 <= y <= (z + 719468) / 146097 * 400 + 400.
Proof.
  unfold civilFromDays. cbv zeta.
  set (doe := (z + 719468) mod 146097).
  assert (Hdoe : 0 <= doe <= 146096).
  { unfold doe. pose proof (Z.mod_pos_bound (z + 719468) 146097). lia. }
  pose proof (civil_yoe_bounds doe Hdoe) as Hyoe.
  pose proof (civil_doy_bounds doe Hdoe) as Hdoy. cbv zeta in Hdoy.
  set (yoe := (doe - doe / 1460 + doe / 36524 - doe / 146096) / 365) in *.
  set (doy := doe - (365 * yoe + yoe / 4 - yoe / 100)) in *.
  pose proof (civil_month_day_bounds doy Hdoy) as Hmd. cbv zeta in Hmd.
  set (mp := (5 * doy + 2) / 153) in *.
  destruct Hmd as [Hmp Hd].
  destruct (mp <? 10) eqn:E;
    [apply Z.ltb_lt in E | apply Z.ltb_ge in E].
  - split; [lia|]. split; [exact Hd|].
    destruct (mp + 3 <=? 2); lia.
  - split; [lia|]. split; [exact Hd|].
    destruct (mp - 9 <=? 2); lia.
Qed.

(** The day number of the calendar date of a day is that day. *)
Lemma daysFromCivil_civilFromDays (z : Z) :
  let '(y, m, d) := civilFromDays z in daysFromCivil y m d = z.
Proof.
  unfold civilFromDays. cbv zeta.
  set (era := (z + 719468) / 146097).
  set (doe := (z + 719468) mod 146097).
  assert (Hz : z + 719468 = era * 146097 + doe).
  { unfold era, doe. pose proof (Z.div_mod (z + 719468) 146097). lia. }
  assert (Hdoe : 0 <= doe <= 146096).
  { unfold doe. pose proof (Z.mod_pos_bound (z + 719468) 146097). lia. }
  pose proof (civil_yoe_bounds doe Hdoe) as Hyoe.
  pose proof (civil_doy_bounds doe Hdoe) as Hdoy. cbv zeta in Hdoy.
  set (yoe := (doe - doe / 1460 + doe / 36524 - doe / 146096) / 365) in *.
  set (doy := doe - (365 * yoe + yoe / 4 - yoe / 100)) in *.
  pose proof (civil_month_day_bounds doy Hdoy) as Hmd. cbv zeta in Hmd.
  set (mp := (5 * doy + 2) / 153) in *.
  destruct Hmd as [Hmp Hd].
  set (m := if mp <? 10 then mp + 3 else mp - 9).
  assert (Hm : (if 2 <? m then m - 3 else m + 9) = mp
               /\ ((m <=? 2) = negb (mp <? 10))).
  { unfold m. destruct (mp <? 10) eqn:E;
      [apply Z.ltb_lt in E | apply Z.ltb_ge in E].
    - replace (2 <? mp + 3) with true by (symmetry; apply Z.ltb_lt; lia).
      replace (mp + 3 <=? 2) with false by (symmetry; apply Z.leb_gt; lia).
      split; [lia | reflexivity].
    - replace (2 <? mp - 9) with false by (symmetry; apply Z.ltb_ge; lia).
      replace (mp - 9 <=? 2) with true by (symmetry; apply Z.leb_le; lia).
      split; [lia | reflexivity]. }
  destruct Hm as [Hmp' Hle].
  unfold daysFromCivil. cbv zeta. rewrite Hmp'.
  set (y' := if m <=? 2
             then yoe + era * 400 + (if m <=? 2 then 1 else 0) - 1
             else yoe + era * 400 + (if m <=? 2 then 1 else 0)).
  assert (Hy' : y' = yoe + era * 400).
  { unfold y'. destruct (m <=? 2); lia. }
  rewrite Hy'.
  assert (Hera : (yoe + era * 400) / 400 = era).
  { symmetry. apply (Z.div_unique_pos _ _ era yoe); lia. }
  assert (Hrem : (yoe + era * 400) mod 400 = yoe).
  { symmetry. apply (Z.mod_unique_pos _ _ era yoe); lia. }
  rewrite Hera, Hrem. unfold doy. lia.
Qed.

Lemma civilFromDays_inj (z1 z2 : Z) :
  civilFromDays z1 = civilFromDays z2 -> z1 = z2.
Proof.
  intros E.
  pose proof (daysFromCivil_civilFromDays z1) as H1.
  pose proof (daysFromCivil_civilFromDays z2) as H2.
  rewrite E in H1. destruct (civilFromDays z2) as [[y m] d]. congruence.
Qed.

(** [MakeDay] is linear in the day of the month. *)
Lemma daysFromCivil_shift (y m d i : Z) :
  daysFromCivil y m (d - i) = daysFromCivil y m d - i.
Proof. unfold daysFromCivil. cbv zeta. lia. Qed.

End Calendar.

(** ** The date part of an ISO string *)

Section IsoDate.
Import JS JSDate.

Lemma digit_code (n : Z) :
  N_of_ascii (digit n) = (48 + Z.to_N (n mod 10))%N.
Proof.
  unfold digit. apply N_ascii_embedding.
  pose proof (Z.mod_pos_bound n 10). lia.
Qed.

Lemma digit_eq_mod (a b : Z) : digit a = digit b -> a mod 10 = b mod 10.
Proof.
  intros E. apply (f_equal N_of_ascii) in E. rewrite !digit_code in E.
  pose proof (Z.mod_pos_bound a 10). pose proof (Z.mod_pos_bound b 10).
  lia.
Qed.

Lemma digit_not (n : Z) (c : ascii) :
  (N_of_ascii c < 48 \/ 57 < N_of_ascii c)%N -> digit n <> c.
Proof.
  intros Hc E. apply (f_equal N_of_ascii) in E. rewrite digit_code in E.
  pose proof (Z.mod_pos_bound n 10). lia.
Qed.

Lemma chars_app (s t : string) :
  list_ascii_of_string (s ++ t)%string
  = (list_ascii_of_string s ++ list_ascii_of_string t)%list.
Proof.
  induction s as [|c s IH]; simpl; [reflexivity | f_equal; exact IH].
Qed.

Lemma yearString_chars (y : Z) (c : ascii) :
  In c (list_ascii_of_string (yearString y)) ->
  c = "-"%char \/ c = "+"%char \/ exists n, c = digit n.
Proof.
  unfold yearString.
  destruct ((0 <=? y) && (y <=? 9999)); [|destruct (y <? 0)]; cbn;
    intuition (subst; eauto).
Qed.

Lemma dateString_chars (ymd : Z * Z * Z) (c : ascii) :
  In c (list_ascii_of_string (dateString ymd)) ->
  c = "-"%char \/ c = "+"%char \/ exists n, c = digit n.
Proof.
  destruct ymd as [[y m] d]. unfold dateString.
  rewrite !chars_app. rewrite !in_app_iff.
  intros [Hy|[Hc|[Hm|[Hc|Hd]]]].
  - now apply (yearString_chars y).
  - cbn in Hc. intuition (subst; eauto).
  - cbn in Hm. intuition (subst; eauto).
  - cbn in Hc. intuition (subst; eauto).
  - cbn in Hd. intuition (subst; eauto).
Qed.

Lemma split_prefix (sep : ascii) (s r : string) :
  ~ In sep (list_ascii_of_string s) ->
  split sep (s ++ String sep r) = s :: split sep r.
Proof.
  induction s as [|c s IH]; intros Hnot; simpl.
  - now rewrite Ascii.eqb_refl.
  - destruct (Ascii.eqb c sep) eqn:E.
    + apply Ascii.eqb_eq in E. exfalso. apply Hnot. cbn. auto.
    + rewrite IH; [reflexivity|]. intros Hin. apply Hnot. cbn. auto.
Qed.

(** [toISOString().split('T')[0]] is the date part. *)
Lemma toISOString_date (t : Z) :
  default "" (split "T" (toISOString t) !! 0%nat)
  = dateString (civilFromDays (Day t)).
Proof.
  assert (E : toISOString t
              = (dateString (civilFromDays (Day t))
                 ++ String "T" (timeString (TimeWithinDay t) ++ "Z"))%string)
    by reflexivity.
  rewrite E, split_prefix; [reflexivity|].
  intros Hin. apply dateString_chars in Hin.
  destruct Hin as [Ec|[Ec|[n Ec]]]; try discriminate.
  symmetry in Ec. revert Ec. apply digit_not. cbn. lia.
Qed.

Lemma dateString_inj (y1 m1 d1 y2 m2 d2 : Z) :
  -1000000 < y1 < 1000000 -> -1000000 < y2 < 1000000 ->
  0 <= m1 < 100 -> 0 <= m2 < 100 -> 0 <= d1 < 100 -> 0 <= d2 < 100 ->
  dateString (y1, m1, d1) = dateString (y2, m2, d2) ->
  (y1, m1, d1) = (y2, m2, d2).
Proof.
  intros Hy1 Hy2 Hm1 Hm2 Hd1 Hd2.
  unfold dateString, yearString.
  destruct ((0 <=? y1) && (y1 <=? 9999)) eqn:E1;
    destruct ((0 <=? y2) && (y2 <=? 9999)) eqn:E2;
    cbn; intros E; injection E as E.
  all: repeat match goal with
              | Hd : digit _ = digit _ |- _ => apply digit_eq_mod in Hd
              end.
  all: try (exfalso;
            match goal with
            | Hd : digit _ = (if _ then _ else _) |- _ =>
                revert Hd; apply digit_not;
                destruct (_ <? 0); cbn; lia
            | Hd : (if _ then _ else _) = digit _ |- _ =>
                symmetry in Hd; revert Hd; apply digit_not;
                destruct (_ <? 0); cbn; lia
            end).
  - apply andb_prop in E1, E2. destruct E1 as [A1 B1], E2 as [A2 B2].
    apply Z.leb_le in A1, B1, A2, B2.
    assert (y1 = y2 /\ m1 = m2 /\ d1 = d2)
      by (Z.to_euclidean_division_equations; lia).
    intuition congruence.
  - assert (Hs : (y1 <? 0) = (y2 <? 0)).
    { destruct (y1 <? 0), (y2 <? 0); try reflexivity; discriminate. }
    assert (Z.abs y1 = Z.abs y2 /\ m1 = m2 /\ d1 = d2)
      by (Z.to_euclidean_division_equations; lia).
    assert (y1 = y2).
    { destruct (y1 <? 0) eqn:S1; symmetry in Hs;
        [apply Z.ltb_lt in S1, Hs | apply Z.ltb_ge in S1, Hs]; lia. }
    intuition congruence.
Qed.

End IsoDate.

(** ** Usage counters *)

Section Days.
Import JS JSDate App CounterVocabulary.

Lemma getISODateString_day (tz t : Z) :
  getISODateString tz t = isoOfDay (localDay tz t).
Proof.
  unfold getISODateString. cbv zeta. rewrite toISOString_date.
  unfold isoOfDay, localDay, LocalTime, msPerMinute.
  replace (t - tz * 60 * 1000) with (t - tz * 60000) by lia.
  reflexivity.
Qed.

Lemma isoOfDay_inj (a b : Z) :
  dayInRange a -> dayInRange b -> isoOfDay a = isoOfDay b -> a = b.
Proof.
  unfold dayInRange, isoOfDay. intros Ha Hb E.
  apply civilFromDays_inj.
  pose proof (civilFromDays_range a) as Ra.
  pose proof (civilFromDays_range b) as Rb.
  destruct (civilFromDays a) as [[y1 m1] d1].
  destruct (civilFromDays b) as [[y2 m2] d2].
  apply dateString_inj; try lia; try exact E.
  - assert (-680 <= (a + 719468) / 146097 <= 690)
      by (Z.to_euclidean_division_equations; lia).
    lia.
  - assert (-680 <= (b + 719468) / 146097 <= 690)
      by (Z.to_euclidean_division_equations; lia).
    lia.
Qed.

Lemma Day_of_day (n ms : Z) :
  0 <= ms < msPerDay -> Day (n * msPerDay + ms) = n.
Proof.
  intros Hms. unfold Day. symmetry.
  apply (Z.div_unique_pos _ _ n ms); [exact Hms|]. lia.
Qed.

(** [d.setDate(now.getDate() - i)] is [i] days before [now]. *)
Lemma setDate_day (tz t i : Z) :
  localDay tz (setDate tz t (getDate tz t - i)) = localDay tz t - i.
Proof.
  unfold localDay, setDate, getDate.
  pose proof (daysFromCivil_civilFromDays (Day (LocalTime tz t))) as Hround.
  destruct (civilFromDays (Day (LocalTime tz t))) as [[y m] d].
  rewrite daysFromCivil_shift, Hround.
  unfold UTC, LocalTime at 1.
  replace (_ + tz * msPerMinute - tz * msPerMinute)
    with ((Day (LocalTime tz t) - i) * msPerDay
          + TimeWithinDay (LocalTime tz t)) by lia.
  apply Day_of_day. unfold TimeWithinDay, msPerDay.
  apply Z.mod_pos_bound. lia.
Qed.

End Days.

Section Counters.
Import JS App CounterVocabulary.
Context `{Host}.

Lemma calculateStats_fields (tz now : Z) (o : statsObject) :
  let counts := default ∅ (stored_dailyCounts o) in
  let day := localDay tz now in
  today (calculateStats tz now o) = countAt counts (isoOfDay day)
  /\ yesterday (calculateStats tz now o)
     = countAt counts (isoOfDay (day - 1))
  /\ last7Days (calculateStats tz now o)
     = countAt counts (isoOfDay day)
       + countAt counts (isoOfDay (day - 1))
       + countAt counts (isoOfDay (day - 2))
       + countAt counts (isoOfDay (day - 3))
       + countAt counts (isoOfDay (day - 4))
       + countAt counts (isoOfDay (day - 5))
       + countAt counts (isoOfDay (day - 6))
  /\ total (calculateStats tz now o) = default 0 (stored_total o).
Proof.
  cbv zeta. unfold calculateStats. cbv zeta.
  cbn [today yesterday last7Days total].
  change (seqZ 0 7) with [0; 1; 2; 3; 4; 5; 6]. cbn [fold_left].
  rewrite !getISODateString_day, !setDate_day.
  rewrite Z.sub_0_r. repeat split; lia.
Qed.

Lemma incrementUsage_store (tz t : Z) (st : storage) :
  let k := getISODateString tz t in
  fst (incrementUsage tz t st)
  = Some (Json (MkStats None (Some (totalOf st + 1))
                        (Some (<[k := countAt (countsOf st) k + 1]>
                                 (countsOf st))))).
Proof. destruct st as [[|o]|]; reflexivity. Qed.

Lemma countAt_insert (m : gmap string Z) (k k' : string) (v : Z) :
  countAt (<[k := v]> m) k'
  = if decide (k = k') then v else countAt m k'.
Proof. unfold countAt. rewrite lookup_insert. now case_decide. Qed.

Lemma incrementUsage_effect (tz t : Z) (st : storage) :
  let k := isoOfDay (localDay tz t) in
  let st' := fst (incrementUsage tz t st) in
  totalOf st' = totalOf st + 1
  /\ countsOf st' = <[k := countAt (countsOf st) k + 1]> (countsOf st)
  /\ currentShape st'.
Proof.
  cbv zeta. rewrite incrementUsage_store. cbv zeta.
  rewrite getISODateString_day. repeat split; reflexivity.
Qed.

Lemma incrementAt_cons (tz t : Z) (times : list Z) (st : storage) :
  incrementAt tz (t :: times) st
  = incrementAt tz times (fst (incrementUsage tz t st)).
Proof. reflexivity. Qed.

(** Increments within one day add to the total and to that day only. *)
Lemma incrementAt_day (tz day : Z) (times : list Z) (st : storage) :
  Forall (fun t => localDay tz t = day) times ->
  let st' := incrementAt tz times st in
  totalOf st' = totalOf st + Z.of_nat (length times)
  /\ countAt (countsOf st') (isoOfDay day)
     = countAt (countsOf st) (isoOfDay day) + Z.of_nat (length times)
  /\ (forall k, k <> isoOfDay day ->
                countAt (countsOf st') k = countAt (countsOf st) k)
  /\ (currentShape st -> currentShape st').
Proof.
  intros Hday. revert st.
  induction Hday as [|t times Ht _ IH]; intros st; cbv zeta.
  - unfold incrementAt. cbn [fold_left length Z.of_nat].
    repeat split; try lia. auto.
  - rewrite incrementAt_cons.
    destruct (incrementUsage_effect tz t st) as (Et & Ec & Es).
    cbv zeta in Et, Ec, Es. rewrite Ht in Ec.
    specialize (IH (fst (incrementUsage tz t st))). cbv zeta in IH.
    destruct IH as (IHt & IHc & IHo & IHs).
    rewrite Et in IHt. rewrite Ec in IHc.
    rewrite countAt_insert, decide_True in IHc by reflexivity.
    split; [rewrite IHt; cbn [length]; lia|].
    split; [rewrite IHc; cbn [length]; lia|].
    split.
    + intros k Hk. rewrite (IHo k Hk), Ec.
      rewrite countAt_insert. now rewrite decide_False by congruence.
    + intros _. apply IHs. exact Es.
Qed.

Lemma loadStats_current (tz now : Z) (st : storage) :
  currentShape st ->
  snd (loadStats tz now st) = calculateStats tz now (objectOf st).
Proof.
  destruct st as [[|o]|]; try reflexivity.
  cbn. intros ->. reflexivity.
Qed.

End Counters.

Section CounterClaims.
Import JS App CounterVocabulary.
Context `{Host}.

Lemma isoOfDay_neq (a b : Z) :
  dayInRange a -> dayInRange b -> a <> b -> isoOfDay a <> isoOfDay b.
Proof. intros Ha Hb Hne E. apply Hne. now apply isoOfDay_inj. Qed.

(** The counts after increments on the days [D], [D+1] and [D+2]. *)
Lemma three_days_counts (tz D : Z) (times1 times2 times3 : list Z) :
  dayInRange D -> dayInRange (D + 2) ->
  Forall (fun t => localDay tz t = D) times1 ->
  Forall (fun t => localDay tz t = D + 1) times2 ->
  Forall (fun t => localDay tz t = D + 2) times3 ->
  let st :=
    incrementAt tz times3
                (incrementAt tz times2 (incrementAt tz times1 None)) in
  currentShape st
  /\ totalOf st
     = Z.of_nat (length times1) + Z.of_nat (length times2)
       + Z.of_nat (length times3)
  /\ forall n,
       dayInRange n ->
       countAt (countsOf st) (isoOfDay n)
       = (if decide (n = D) then Z.of_nat (length times1) else 0)
         + (if decide (n = D + 1) then Z.of_nat (length times2) else 0)
         + (if decide (n = D + 2) then Z.of_nat (length times3) else 0).
Proof.
  intros HD HD2 H1 H2 H3. cbv zeta.
  assert (HD1 : dayInRange (D + 1)) by (unfold dayInRange in *; lia).
  destruct (incrementAt_day tz D times1 None H1) as (T1 & C1 & O1 & S1).
  set (st1 := incrementAt tz times1 None) in *.
  destruct (incrementAt_day tz (D + 1) times2 st1 H2) as (T2 & C2 & O2 & S2).
  set (st2 := incrementAt tz times2 st1) in *.
  destruct (incrementAt_day tz (D + 2) times3 st2 H3) as (T3 & C3 & O3 & S3).
  set (st3 := incrementAt tz times3 st2) in *.
  cbv zeta in *.
  split; [apply S3, S2, S1; exact I|].
  split; [rewrite T3, T2, T1; reflexivity|].
  intros n Hn.
  assert (E0 : forall k, countAt (countsOf None) k = 0) by reflexivity.
  destruct (decide (n = D + 2)) as [->|N3].
  { rewrite C3, O2, O1, E0 by (apply isoOfDay_neq; auto; lia).
    rewrite !decide_False by lia. lia. }
  rewrite O3 by (apply isoOfDay_neq; auto).
  destruct (decide (n = D + 1)) as [->|N2].
  { rewrite C2, O1, E0 by (apply isoOfDay_neq; auto; lia).
    rewrite !decide_False by lia. lia. }
  rewrite O2 by (apply isoOfDay_neq; auto).
  destruct (decide (n = D)) as [->|N1].
  { rewrite C1, E0. lia. }
  rewrite O1, E0 by (apply isoOfDay_neq; auto). lia.
Qed.

(** C5.  From an empty store, increments at instants of three
    consecutive local days [D], [D+1], [D+2] (all within the days a
    [Date] can hold), followed by the computation of the statistics at an
    instant of day [D+2], give: today the number of increments of day
    [D+2], yesterday that of day [D+1], the last seven days and the total
    the number of all three. *)
Theorem three_consecutive_days
        (tz D : Z) (times1 times2 times3 : list Z) (now : Z) :
  dayInRange (D - 4) -> dayInRange (D + 2) ->
  Forall (fun t => localDay tz t = D) times1 ->
  Forall (fun t => localDay tz t = D + 1) times2 ->
  Forall (fun t => localDay tz t = D + 2) times3 ->
  localDay tz now = D + 2 ->
  let c1 := Z.of_nat (length times1) in
  let c2 := Z.of_nat (length times2) in
  let c3 := Z.of_nat (length times3) in
  let st :=
    incrementAt tz times3
                (incrementAt tz times2 (incrementAt tz times1 None)) in
  let stats := snd (loadStats tz now st) in
  today stats = c3 /\ yesterday stats = c2
  /\ last7Days stats = c1 + c2 + c3 /\ total stats = c1 + c2 + c3.
Proof.
  intros HD4 HD2 H1 H2 H3 Hnow. cbv zeta.
  assert (HD : dayInRange D) by (unfold dayInRange in *; lia).
  destruct (three_days_counts tz D times1 times2 times3 HD HD2 H1 H2 H3)
    as (Hshape & Htotal & Hcount).
  cbv zeta in Hshape, Htotal, Hcount.
  set (st := incrementAt tz times3 _) in *.
  rewrite (loadStats_current tz now st Hshape).
  destruct (calculateStats_fields tz now (objectOf st))
    as (Et & Ey & E7 & Etot).
  cbv zeta in Et, Ey, E7, Etot.
  fold (countsOf st) in Et, Ey, E7. fold (totalOf st) in Etot.
  rewrite Hnow in Et, Ey, E7.
  rewrite Et, Ey, E7, Etot, Htotal.
  rewrite !Hcount by (unfold dayInRange in *; lia).
  repeat match goal with
         | |- context [decide (?a = ?b)] =>
             first [ rewrite (decide_True (P := a = b)) by lia
                   | rewrite (decide_False (P := a = b)) by lia ]
         end.
  repeat split; lia.
Qed.


(** What the migration does: the count is kept when the stored date is
    the UTC date of [now]. *)
Lemma loadStats_migrates (tz now : Z) (d : string) (c T : Z) :
  fst (loadStats tz now (Some (Json (MkStats (Some (MkDayCount d c))
                                             (Some T) None))))
  = Some (Json (MkStats None (Some T)
                        (Some (if String.eqb d (isoOfDay (JSDate.Day now))
                               then <[d := c]> ∅ else ∅)))).
Proof.
  cbn [loadStats isOldShape stored_today stored_total stored_dailyCounts fst].
  unfold migrate. cbn [stored_today stored_total date count].
  rewrite toISOString_date. fold (isoOfDay (JSDate.Day now)).
  destruct (String.eqb d (isoOfDay (JSDate.Day now))); reflexivity.
Qed.

End CounterClaims.

Section CounterInstances.
Import JS App CounterVocabulary.

(** Two increments on 1 January 2024, one on the 2nd, three on the 3rd,
    in a zone seven hours ahead of UTC. *)
Lemma three_consecutive_days_witness :
  let host := Sample.host None false in
  let st :=
    @incrementAt host (-420) [1704250800000; 1704254400000; 1704290400000]
      (@incrementAt host (-420) [1704168000000]
         (@incrementAt host (-420) [1704070800000; 1704110400000] None)) in
  let stats := snd (@loadStats host (-420) 1704294000000 st) in
  today stats = 3 /\ yesterday stats = 1
  /\ last7Days stats = 6 /\ total stats = 6.
Proof.
  intros host.
  apply (@three_consecutive_days
           host (-420) 19723
           [1704070800000; 1704110400000] [1704168000000]
           [1704250800000; 1704254400000; 1704290400000] 1704294000000).
  - unfold dayInRange. lia.
  - unfold dayInRange. lia.
  - repeat constructor.
  - repeat constructor.
  - repeat constructor.
  - reflexivity.
Defined.

(** C2 fails on the code: at 03:00 on 2 January 2024 in a zone seven
    hours ahead of UTC, the local date is 2024-01-02 and the UTC date
    2024-01-01; a count stored under the local date is dropped. *)
Lemma migration_compares_utc_date :
  let host := Sample.host None false in
  let old := MkStats (Some (MkDayCount "2024-01-02" 5)) (Some 9) None in
  getISODateString (-420) 1704139200000 = "2024-01-02"
  /\ fst (@loadStats host (-420) 1704139200000 (Some (Json old)))
     = Some (Json (MkStats None (Some 9) (Some ∅))).
Proof.
  intros host old. split; [reflexivity|].
  unfold old. rewrite loadStats_migrates. reflexivity.
Qed.

End CounterInstances.

(* ===================================================================== *)
(** * Further properties                                                  *)
(* ===================================================================== *)

(** ** [fileToBase64] *)

Section FileToBase64.
Import JS FileUtils ExtraVocabulary.

Lemma split_free (sep : ascii) (s : string) :
  freeOf sep s -> split sep s = [s].
Proof.
  unfold freeOf. induction s as [|c s IH]; intros Hfree; [reflexivity|].
  cbn [split]. destruct (Ascii.eqb c sep) eqn:E.
  - apply Ascii.eqb_eq in E. exfalso. apply Hfree. cbn. auto.
  - rewrite IH; [reflexivity|]. intros Hin. apply Hfree. cbn. auto.
Qed.

Lemma split_nonempty (sep : ascii) (s : string) : split sep s <> [].
Proof.
  induction s as [|c s IH]; cbn [split]; [discriminate|].
  destruct (Ascii.eqb c sep); [discriminate|].
  destruct (split sep s); [contradiction | discriminate].
Qed.

(** No component of a split contains the separator. *)
Lemma split_components_free (sep : ascii) (s x : string) :
  In x (split sep s) -> freeOf sep x.
Proof.
  unfold freeOf. revert x. induction s as [|c s IH]; intros x Hx.
  - cbn in Hx. destruct Hx as [<-|[]]. cbn. tauto.
  - cbn [split] in Hx. destruct (Ascii.eqb c sep) eqn:E.
    + destruct Hx as [<-|Hx]; [cbn; tauto | now apply IH].
    + pose proof (split_nonempty sep s) as Hne.
      destruct (split sep s) as [|h t]; [contradiction|].
      destruct Hx as [<-|Hx].
      * cbn. intros [->|Hin].
        -- rewrite Ascii.eqb_refl in E. discriminate.
        -- revert Hin. apply IH. now left.
      * apply IH. now right.
Qed.

(** A split with a second component has a separator in the string. *)
Lemma split_second (sep : ascii) (s x : string) :
  split sep s !! 1%nat = Some x -> In sep (list_ascii_of_string s).
Proof.
  intros Hx. destruct (in_dec ascii_dec sep (list_ascii_of_string s))
    as [Hin|Hnot]; [exact Hin|].
  rewrite (split_free sep s Hnot) in Hx. discriminate.
Qed.

(** X1.  A data URL made of a header without comma, a comma and a
    non-empty payload without comma is read back as the payload, with
    the MIME type of the file. *)
Theorem fileToBase64_round_trip (file : File) (header payload : string) :
  file_dataURL file = Some (header ++ String "," payload)%string ->
  freeOf "," header -> freeOf "," payload -> payload <> "" ->
  fileToBase64 file = Resolved (payload, file_type file).
Proof.
  intros Hurl Hh Hp Hne. unfold fileToBase64. rewrite Hurl.
  rewrite (split_prefix "," header payload Hh).
  rewrite (split_free "," payload Hp). cbn.
  apply truthyString_true in Hne. now rewrite Hne.
Qed.

(** X2.  Whenever [fileToBase64] resolves, the reader gave a string with
    a comma, and the result is a non-empty payload without comma together
    with the MIME type of the file; so a file the reader fails on, or a
    result without comma or with nothing after its first comma, is
    rejected. *)
Theorem fileToBase64_resolved (file : File) (data mimeType : string) :
  fileToBase64 file = Resolved (data, mimeType) ->
  mimeType = file_type file /\ data <> "" /\ freeOf "," data
  /\ exists result,
       file_dataURL file = Some result
       /\ In ","%char (list_ascii_of_string result)
       /\ split "," result !! 1%nat = Some data.
Proof.
  unfold fileToBase64.
  destruct (file_dataURL file) as [result|]; [|discriminate].
  destruct (split "," result !! 1%nat) as [d|] eqn:Ed; [|discriminate].
  destruct (truthyString d) eqn:Et; [|discriminate].
  intros E. injection E as <- <-.
  split; [reflexivity|]. split; [now apply truthyString_true|].
  split.
  - apply (split_components_free "," result).
    apply list_elem_of_In. eapply list_elem_of_lookup_2. exact Ed.
  - exists result. split; [reflexivity|].
    split; [now apply (split_second "," result d) | exact Ed].
Qed.

Lemma fileToBase64_round_trip_witness :
  fileToBase64 (MkFile "image/png"
                       (Some "data:image/png;base64,iVBORw0KGgo") None)
  = Resolved ("iVBORw0KGgo", "image/png").
Proof.
  apply (fileToBase64_round_trip
           (MkFile "image/png"
                   (Some "data:image/png;base64,iVBORw0KGgo") None)
           "data:image/png;base64" "iVBORw0KGgo").
  - reflexivity.
  - unfold freeOf. cbn. intuition discriminate.
  - unfold freeOf. cbn. intuition discriminate.
  - discriminate.
Defined.

Lemma fileToBase64_resolved_witness :
  "image/jpeg" = file_type Sample.photo /\ "/9j/4AAQSkZJRg" <> "".
Proof.
  destruct (fileToBase64_resolved Sample.photo "/9j/4AAQSkZJRg" "image/jpeg")
    as (Hm & Hd & _); [reflexivity|].
  split; [exact Hm | exact Hd].
Defined.

End FileToBase64.

(** ** [applyTitle]: what decides its outcome *)

Section ApplyTitleOutcome.
Import JS Canvas FileUtils Vocabulary ExtraVocabulary.
Context `{Host}.

(** X3.  [applyTitle] resolves exactly when the image is decoded, a
    context is obtained and the first two components of the aspect ratio
    read as nonzero numbers; and when it rejects, it rejects with the
    same value whatever the title parts, the font family and the
    subtitle. *)
Theorem applyTitle_outcome_decided_by_checks
        (src : string) (parts : list titlePart) (family : string)
        (sub : option SubtitleOptions) (ar : string) :
  ((exists c, applyTitle src parts family sub ar = Resolved c)
   <-> exists img, accepted src img ar)
  /\ forall e parts' family' sub',
       applyTitle src parts family sub ar = Rejected e ->
       applyTitle src parts' family' sub' ar = Rejected e.
Proof.
  unfold accepted, firstTwoNonzero, applyTitle. split; [split|].
  - intros [c Hc].
    destruct (loadImage src) as [img|]; [|discriminate].
    destruct hasContext2d; [|discriminate]. cbn [negb] in Hc.
    cbv zeta in Hc.
    destruct (truthyNumber (_ !! 0%nat)); [|discriminate].
    destruct (truthyNumber (_ !! 1%nat)); [|discriminate].
    exists img. auto.
  - intros (img & -> & -> & Hw & Hh). cbn [negb]. cbv zeta.
    rewrite Hw, Hh. eexists. reflexivity.
  - intros e parts' family' sub'.
    destruct (loadImage src) as [img|]; [|auto].
    destruct hasContext2d; cbn [negb]; [|auto]. cbv zeta.
    destruct (negb _ || negb _); [auto | discriminate].
Qed.

End ApplyTitleOutcome.

Section ApplyTitleOutcomeInstances.
Import JS Canvas FileUtils Vocabulary ExtraVocabulary.

Lemma applyTitle_outcome_decided_by_checks_witness :
  let host := Sample.host (Some (MkImage 1600 1200)) true in
  exists c,
    @applyTitle host "img" [MkPart "Big" "#FFFFFF"] "Oswald" None "4:3"
    = Resolved c.
Proof.
  intros host.
  apply (proj1 (@applyTitle_outcome_decided_by_checks
                  host "img" [MkPart "Big" "#FFFFFF"] "Oswald" None "4:3")).
  exists (MkImage 1600 1200).
  split; [reflexivity|]. split; [reflexivity|]. split; reflexivity.
Defined.

End ApplyTitleOutcomeInstances.

(** ** [applyTitle]: the text calls *)

Section TitleCalls.
Import JS Canvas FileUtils Vocabulary ExtraVocabulary.
Context `{Host}.

Lemma fold_fillText_calls (t : string) (x y : Q) (l : list Z) (c : ctx2d) :
  let c' :=
    fold_left (fun c i => fillText t (x + inject_Z i) (y + inject_Z i) c)
              l c in
  ctx_calls c'
  = (ctx_calls c
     ++ List.map (fun i => (FillText t (x + inject_Z i) (y + inject_Z i),
                            ctx_state c)) l)%list
  /\ ctx_state c' = ctx_state c.
Proof.
  cbv zeta. revert c. induction l as [|i l IH]; intros c; cbn [fold_left List.map].
  - now rewrite app_nil_r.
  - destruct (IH (fillText t (x + inject_Z i) (y + inject_Z i) c))
      as [Hcalls Hstate].
    rewrite Hcalls, Hstate. cbn [fillText issue ctx_calls ctx_state].
    now rewrite <- app_assoc.
Qed.

(** The calls of one segment: the extrusion layers, then the top
    layer. *)
Lemma drawPart_calls (s : Z) (y : Q) (isLast : bool) (part : titlePart)
      (x : Q) (c : ctx2d) :
  let t := toUpperCase (text part) in
  let c1 := setFillStyle "rgba(0, 0, 0, 0.6)" c in
  let off := Qmax 2 (inject_Z s / 40) in
  let c2 :=
    setFillStyle (color part)
      (setShadow dropShadow (Qmax 5 (inject_Z s / 15)) off off c1) in
  let c' := snd (drawPart s y isLast part (x, c)) in
  ctx_calls c'
  = (ctx_calls c
     ++ List.map (fun i => (FillText t (x + inject_Z i) (y + inject_Z i),
                            ctx_state c1)) (seqZ 1 (layersAt s))
     ++ [(FillText t x y, ctx_state c2)])%list
  /\ ctx_state c' = ctx_state (setShadow "transparent" 0 0 0 c2).
Proof.
  cbv zeta. unfold drawPart, layersAt.
  set (t := toUpperCase (text part)).
  set (c1 := setFillStyle "rgba(0, 0, 0, 0.6)" c).
  destruct (fold_fillText_calls t x y (seqZ 1 (Z.max 2 (Qceiling (inject_Z s / 35)))) c1)
    as [Hcalls Hstate].
  cbv zeta in Hcalls, Hstate.
  set (c3 := fold_left _ _ c1) in *.
  destruct isLast; cbn [snd];
    cbn [setShadow setFillStyle withState fillText issue ctx_calls ctx_state];
    rewrite Hcalls, Hstate; cbn [c1 setFillStyle withState ctx_calls ctx_state];
    (split; [now rewrite <- app_assoc | reflexivity]).
Qed.

Lemma drawPart_cursor (s : Z) (y : Q) (isLast : bool) (part : titlePart)
      (x : Q) (c : ctx2d) :
  fst (drawPart s y isLast part (x, c))
  = let f := st_font (ctx_state c) in
    let next := (x + measureText f (toUpperCase (text part)))%Q in
    if isLast then next else (next + measureText f " ")%Q.
Proof.
  unfold drawPart.
  destruct (fold_fillText_calls
              (toUpperCase (text part)) x y
              (seqZ 1 (Z.max 2 (Qceiling (inject_Z s / 35))))
              (setFillStyle "rgba(0, 0, 0, 0.6)" c)) as [_ Hstate].
  cbv zeta in Hstate.
  destruct isLast; cbn [fst];
    cbn [setShadow setFillStyle withState fillText issue ctx_state];
    rewrite Hstate; reflexivity.
Qed.

End TitleCalls.

Section TitleLayout.
Import JS Canvas FileUtils Vocabulary ExtraVocabulary.
Context `{Host}.

Lemma filter_extrusions (t : string) (x y : Q) (st : drawState)
      (l : list Z) :
  st_shadowColor st <> dropShadow ->
  List.filter isTopLayer
    (List.map (fun i => (FillText t (x + inject_Z i) (y + inject_Z i), st))
              l) = [].
Proof.
  intros Hne. induction l as [|i l IH]; [reflexivity|].
  cbn [List.map List.filter]. unfold isTopLayer at 1. cbn [snd].
  apply String.eqb_neq in Hne. rewrite Hne, Bool.andb_false_r. exact IH.
Qed.

Lemma textCalls_extrusions (t : string) (x y : Q) (st : drawState)
      (l : list Z) :
  List.filter isFillText
    (List.map (fun i => (FillText t (x + inject_Z i) (y + inject_Z i), st))
              l)
  = List.map (fun i => (FillText t (x + inject_Z i) (y + inject_Z i), st))
             l.
Proof.
  induction l as [|i l IH]; [reflexivity|].
  cbn [List.map List.filter]. unfold isFillText at 1. cbn [fst].
  now rewrite IH.
Qed.

Lemma layersAt_pos (s : Z) : 2 <= layersAt s.
Proof. unfold layersAt. lia. Qed.

(** One segment adds its top layer to the layout and its layers to the
    count, and leaves the font as it was and the shadow off. *)
Lemma drawPart_summary (s : Z) (y : Q) (isLast : bool) (part : titlePart)
      (x : Q) (c : ctx2d) :
  st_shadowColor (ctx_state c) <> dropShadow ->
  let c' := snd (drawPart s y isLast part (x, c)) in
  omap shownText (List.filter isTopLayer (ctx_calls c'))
  = (omap shownText (List.filter isTopLayer (ctx_calls c))
     ++ [(toUpperCase (text part), x, y, color part)])%list
  /\ textCalls (ctx_calls c')
     = (textCalls (ctx_calls c) + (Z.to_nat (layersAt s) + 1))%nat
  /\ st_font (ctx_state c') = st_font (ctx_state c)
  /\ st_shadowColor (ctx_state c') <> dropShadow.
Proof.
  intros Hoff. cbv zeta.
  destruct (drawPart_calls s y isLast part x c) as [Hcalls Hstate].
  cbv zeta in Hcalls, Hstate. rewrite Hcalls, Hstate.
  split; [|split; [|split]].
  - rewrite !List.filter_app, filter_extrusions by exact Hoff.
    cbn [app List.filter]. unfold isTopLayer at 2.
    cbn [isFillText fst snd setFillStyle setShadow withState ctx_state
                    st_shadowColor].
    rewrite String.eqb_refl. cbn [andb].
    rewrite omap_app. reflexivity.
  - unfold textCalls.
    rewrite !List.filter_app, textCalls_extrusions.
    cbn [List.filter isFillText fst].
    rewrite !length_app, length_map, length_seqZ. cbn [length]. lia.
  - reflexivity.
  - cbn. discriminate.
Qed.

Lemma drawParts_summary (s : Z) (y : Q) (parts : list titlePart)
      (x : Q) (c : ctx2d) :
  st_shadowColor (ctx_state c) <> dropShadow ->
  let c' := snd (drawParts s y parts (x, c)) in
  omap shownText (List.filter isTopLayer (ctx_calls c'))
  = (omap shownText (List.filter isTopLayer (ctx_calls c))
     ++ layout (st_font (ctx_state c)) y x parts)%list
  /\ textCalls (ctx_calls c')
     = (textCalls (ctx_calls c)
        + length parts * (Z.to_nat (layersAt s) + 1))%nat
  /\ st_font (ctx_state c') = st_font (ctx_state c)
  /\ st_shadowColor (ctx_state c') <> dropShadow.
Proof.
  revert x c. induction parts as [|part rest IH]; intros x c Hoff; cbv zeta.
  - cbn [drawParts snd layout length]. rewrite app_nil_r.
    repeat split; [lia | exact Hoff].
  - cbn [drawParts].
    set (isLast := match rest with [] => true | _ => false end).
    destruct (drawPart_summary s y isLast part x c Hoff)
      as (L1 & N1 & F1 & S1). cbv zeta in L1, N1, F1, S1.
    pose proof (drawPart_cursor s y isLast part x c) as Hx.
    destruct (drawPart s y isLast part (x, c)) as [x1 c1] eqn:E.
    cbn [fst snd] in L1, N1, F1, S1, Hx.
    destruct (IH x1 c1 S1) as (L2 & N2 & F2 & S2).
    cbv zeta in L2, N2, F2, S2.
    split; [|split; [|split]].
    + rewrite L2, L1, F1, <- app_assoc. cbn [app layout]. cbv zeta.
      do 2 f_equal. rewrite Hx. cbv zeta. unfold isLast.
      destruct rest; reflexivity.
    + rewrite N2, N1. cbn [length]. lia.
    + now rewrite F2.
    + exact S2.
Qed.

End TitleLayout.

Section ComposeCalls.
Import JS Canvas FileUtils Vocabulary ExtraVocabulary.
Context `{Host}.

(** The calls of the canvas, by the three stages of the drawing. *)
Lemma compose_calls (img : image) (tw th : Q) (parts : list titlePart)
      (family : string) (sub : option SubtitleOptions) :
  let crop := cropFor img tw th in
  let cw := setDimension 300 (sourceWidth crop) in
  let ch := setDimension 150 (sourceHeight crop) in
  let c0 := croppedContext crop cw ch in
  let valid := validPartsOf parts in
  let hasTitle := (0 <? length valid)%nat in
  let t := if hasTitle then drawTitle valid family cw c0 else (0, c0) in
  let c2 :=
    match sub with
    | Some o =>
        if hasSubtitleOf sub
        then drawSubtitle o family hasTitle (fst t) cw ch (snd t)
        else snd t
    | None => snd t
    end in
  canvas_calls (compose img tw th parts family sub) = ctx_calls c2.
Proof.
  cbv zeta. unfold compose. cbv zeta.
  set (crop := cropFor img tw th).
  set (cw := setDimension 300 _). set (ch := setDimension 150 _).
  set (c0 := croppedContext crop cw ch).
  destruct (0 <? length (validPartsOf parts))%nat eqn:Et.
  - cbn [negb andb].
    destruct (drawTitle (validPartsOf parts) family cw c0) as [s c1].
    reflexivity.
  - cbn [negb andb fst snd].
    destruct (hasSubtitleOf sub) eqn:Es; cbn [negb].
    + reflexivity.
    + destruct sub; reflexivity.
Qed.

(** The subtitle is one text call, issued last. *)
Lemma drawSubtitle_calls (o : SubtitleOptions) (family : string)
      (hasTitle : bool) (s cw ch : Z) (c : ctx2d) :
  let size :=
    Qmax 20 ((if hasTitle then inject_Z s
              else inject_Z ch * (1 # 10)) * (4 # 10))%Q in
  let f := MkFont 600 size family in
  let x := ((inject_Z cw - measureText f (sub_text o)) / 2)%Q in
  let y :=
    (25 + (if hasTitle then inject_Z s + inject_Z s * (1 # 10) else 0))%Q in
  exists st,
    ctx_calls (drawSubtitle o family hasTitle s cw ch c)
    = (ctx_calls c ++ [(FillText (sub_text o) x y, st)])%list
    /\ st_font st = f /\ st_fillStyle st = sub_color o
    /\ st_shadowColor st = "rgba(0, 0, 0, 0.8)"
    /\ st_shadowBlur st = 5%Q
    /\ st_shadowOffsetX st = 2%Q /\ st_shadowOffsetY st = 2%Q.
Proof.
  cbv zeta. unfold drawSubtitle. cbv zeta. eexists.
  split; [reflexivity|]. repeat split; reflexivity.
Qed.

Lemma layersAt_bounds (s : Z) : 10 <= s <= 200 -> 2 <= layersAt s <= 6.
Proof.
  intros Hs. unfold layersAt. split; [lia|].
  apply Z.max_lub; [lia|].
  rewrite <- (Qceiling_Z 6). apply Qceiling_resp_le.
  apply Qle_shift_div_r; [reflexivity|].
  unfold Qle. cbn. lia.
Qed.

End ComposeCalls.

Section TitleTheorems.
Import JS Canvas FileUtils Vocabulary ExtraVocabulary.
Context `{Host}.

(** The top layers and the number of text calls after the title stage
    and the subtitle stage. *)
Lemma stages_summary (family : string) (sub : option SubtitleOptions)
      (valid : list titlePart) (crop : cropRect) (cw ch : Z) :
  let c0 := croppedContext crop cw ch in
  let hasTitle := (0 <? length valid)%nat in
  let t := if hasTitle then drawTitle valid family cw c0 else (0, c0) in
  let c2 :=
    match sub with
    | Some o =>
        if hasSubtitleOf sub
        then drawSubtitle o family hasTitle (fst t) cw ch (snd t)
        else snd t
    | None => snd t
    end in
  let fullText := fullTextOf valid in
  let s := titleFontSizeOf family fullText cw in
  let f := titleFont s family in
  omap shownText (List.filter isTopLayer (ctx_calls c2))
  = layout f 25 ((inject_Z cw - measureText f fullText) / 2) valid
  /\ textCalls (ctx_calls c2)
     = (length valid * (Z.to_nat (layersAt s) + 1)
        + (if hasSubtitleOf sub then 1 else 0))%nat.
Proof.
  cbv zeta. set (c0 := croppedContext crop cw ch).
  (* the title stage *)
  assert (Ht : let t := if (0 <? length valid)%nat
                        then drawTitle valid family cw c0 else (0, c0) in
               let s := titleFontSizeOf family (fullTextOf valid) cw in
               let f := titleFont s family in
               omap shownText (List.filter isTopLayer (ctx_calls (snd t)))
               = layout f 25
                        ((inject_Z cw - measureText f (fullTextOf valid)) / 2)
                        valid
               /\ textCalls (ctx_calls (snd t))
                  = (length valid * (Z.to_nat (layersAt s) + 1))%nat).
  { cbv zeta.
    assert (H0 : omap shownText (List.filter isTopLayer (ctx_calls c0)) = []
                 /\ textCalls (ctx_calls c0) = 0%nat).
    { split; reflexivity. }
    destruct H0 as [H0l H0n].
    destruct valid as [|part rest].
    - cbn [length Nat.ltb Nat.leb snd layout]. rewrite H0l, H0n.
      split; reflexivity.
    - cbn [length Nat.ltb Nat.leb]. unfold drawTitle. cbv zeta. cbn [snd].
      generalize (titleFontSizeOf family (fullTextOf (part :: rest)) cw).
      intros s.
      set (c1 := setTextBaseline "top" (setFont (titleFont s family) c0)).
      assert (Hoff : st_shadowColor (ctx_state c1) <> dropShadow).
      { cbn. discriminate. }
      destruct (drawParts_summary
                  s 25 (part :: rest)
                  ((inject_Z cw
                    - measureText (st_font (ctx_state c1))
                                  (fullTextOf (part :: rest))) / 2)%Q
                  c1 Hoff) as (L & N & _ & _).
      cbv zeta in L, N. rewrite L, N.
      change (ctx_calls c1) with (ctx_calls c0). rewrite H0l, H0n.
      split; reflexivity. }
  cbv zeta in Ht. destruct Ht as [Hl Hn].
  set (t := if (0 <? length valid)%nat
            then drawTitle valid family cw c0 else (0, c0)) in *.
  assert (Hsub : forall o,
             let c2 := drawSubtitle o family (0 <? length valid)%nat
                                    (fst t) cw ch (snd t) in
             omap shownText (List.filter isTopLayer (ctx_calls c2))
             = omap shownText (List.filter isTopLayer (ctx_calls (snd t)))
             /\ textCalls (ctx_calls c2)
                = (textCalls (ctx_calls (snd t)) + 1)%nat).
  { intros o. cbv zeta.
    destruct (drawSubtitle_calls o family (0 <? length valid)%nat
                                 (fst t) cw ch (snd t))
      as (st & Hc & _ & _ & Hshadow & _).
    cbv zeta in Hc. rewrite Hc. unfold textCalls.
    rewrite !List.filter_app. cbn [List.filter].
    unfold isTopLayer at 2. cbn [isFillText fst snd]. rewrite Hshadow.
    cbn. rewrite app_nil_r, length_app. split; reflexivity. }
  destruct sub as [o|].
  - destruct (hasSubtitleOf (Some o)).
    + destruct (Hsub o) as [Hl2 Hn2]. cbv zeta in Hl2, Hn2.
      rewrite Hl2, Hn2, Hl, Hn. split; reflexivity.
    + rewrite Hl, Hn. split; [reflexivity | lia].
  - cbn [hasSubtitleOf]. rewrite Hl, Hn. split; [reflexivity | lia].
Qed.

End TitleTheorems.

Section TitleExtras.
Import JS Canvas FileUtils Vocabulary ExtraVocabulary.
Context `{Host}.

Lemma applyTitle_composed (src : string) (img : image)
      (parts : list titlePart) (family : string)
      (sub : option SubtitleOptions) (ar : string) :
  accepted src img ar ->
  exists tw th,
    applyTitle src parts family sub ar
    = Resolved (compose img tw th parts family sub).
Proof.
  intros (Himg & Hctx & Hw & Hh). eexists. eexists.
  apply applyTitle_accepted; assumption.
Qed.


(** X5.  The canvas carries, for each non-blank segment, as many
    extrusion layers as the font size asks for (the size over 35,
    rounded up, and at least 2: between 2 and 6 layers) and one top
    layer, and one more text call for a non-blank subtitle; no other
    text is drawn. *)
Theorem applyTitle_text_call_count
        (src : string) (img : image) (parts : list titlePart)
        (family : string) (sub : option SubtitleOptions) (ar : string) :
  accepted src img ar ->
  exists c,
    applyTitle src parts family sub ar = Resolved c
    /\ let valid := validPartsOf parts in
       let s := titleFontSizeOf family (fullTextOf valid)
                                (canvas_width c) in
       textCalls (canvas_calls c)
       = (length valid * (Z.to_nat (layersAt s) + 1)
          + (if hasSubtitleOf sub then 1 else 0))%nat
       /\ 2 <= layersAt s <= 6.
Proof.
  intros Hacc.
  destruct (applyTitle_composed src img parts family sub ar Hacc)
    as (tw & th & Hc).
  eexists. split; [exact Hc|]. cbv zeta.
  rewrite compose_width. split.
  - pose proof (compose_calls img tw th parts family sub) as Hcalls.
    cbv zeta in Hcalls. rewrite Hcalls.
    apply (stages_summary family sub (validPartsOf parts)).
  - apply layersAt_bounds. apply titleFontSizeOf_spec.
Qed.


End TitleExtras.

Section TitleExtrasInstances.
Import JS Canvas FileUtils Vocabulary ExtraVocabulary.

Lemma sample_accepted :
  @accepted (Sample.host (Some (MkImage 1600 1200)) true)
            "img" (MkImage 1600 1200) "1:1".
Proof. split; [reflexivity|]. split; [reflexivity|]. split; reflexivity. Qed.


Lemma applyTitle_text_call_count_witness :
  let host := Sample.host (Some (MkImage 1600 1200)) true in
  exists c,
    @applyTitle host "img"
                [MkPart "Big" "#FFFFFF"; MkPart "sale" "#FFD700"]
                "Oswald" (Some (MkSubtitle "today only" "#FFFFFF")) "1:1"
    = Resolved c
    /\ (3 <= textCalls (canvas_calls c) <= 15)%nat.
Proof.
  intros host.
  destruct (@applyTitle_text_call_count
              host "img" (MkImage 1600 1200)
              [MkPart "Big" "#FFFFFF"; MkPart "sale" "#FFD700"]
              "Oswald" (Some (MkSubtitle "today only" "#FFFFFF")) "1:1"
              sample_accepted) as (c & Hc & Hn & Hl).
  exists c. split; [exact Hc|]. cbv zeta in Hn, Hl. rewrite Hn.
  change (length (validPartsOf _)) with 2%nat.
  change (if hasSubtitleOf _ then 1%nat else 0%nat) with 1%nat.
  lia.
Defined.


End TitleExtrasInstances.

(** ** [applyWatermark]: outcome, opacity and bounds *)

Section WatermarkExtras.
Import JS Canvas FileUtils Vocabulary ExtraVocabulary.
Context `{Host}.

Lemma applyWatermark_resolved
      (src : string) (baseImage watermarkImage : image)
      (watermarkFile : File) (opacity : Q)
      (position : WatermarkPosition) (size : Q) :
  loadImage src = Some baseImage ->
  file_image watermarkFile = Some watermarkImage ->
  hasContext2d = true ->
  Z.pos (naturalWidth baseImage) <= 2147483647 ->
  Z.pos (naturalHeight baseImage) <= 2147483647 ->
  let W := Z.pos (naturalWidth baseImage) in
  let Ht := Z.pos (naturalHeight baseImage) in
  let p := placeWatermark W Ht baseImage watermarkImage position size in
  applyWatermark src watermarkFile opacity position size
  = Resolved
      (MkCanvas W Ht
         [(DrawImageAt BaseImage 0 0, initialState);
          (DrawImageScaled WatermarkImage (wm_x p) (wm_y p)
                           (watermarkWidth p) (watermarkHeight p),
           ctx_state (setGlobalAlpha opacity newContext))]).
Proof.
  intros Hbase Hwm Hctx HW HH. cbv zeta.
  pose proof (px_pos (naturalWidth baseImage)) as Hbw.
  pose proof (px_pos (naturalHeight baseImage)) as Hbh.
  assert (Ecw : setDimension 300 (px (naturalWidth baseImage))
                = Z.pos (naturalWidth baseImage)).
  { rewrite (setDimension_floor _ _ (Z.pos (naturalWidth baseImage)));
      [apply Qfloor_Z | lra | apply Qle_refl | lia]. }
  assert (Ech : setDimension 150 (px (naturalHeight baseImage))
                = Z.pos (naturalHeight baseImage)).
  { rewrite (setDimension_floor _ _ (Z.pos (naturalHeight baseImage)));
      [apply Qfloor_Z | lra | apply Qle_refl | lia]. }
  unfold applyWatermark. rewrite Hbase, Hwm, Hctx. cbn [negb]. cbv zeta.
  rewrite Ecw, Ech. reflexivity.
Qed.

(** X7.  [applyWatermark] resolves exactly when the base image and the
    watermark are decoded and a context is obtained; it rejects with the
    decoder's event when either image fails and with the context error
    when only the context is missing; and a rejection is the same
    whatever the opacity, the position and the size. *)
Theorem applyWatermark_outcome_decided_by_checks
        (src : string) (watermarkFile : File) (opacity : Q)
        (position : WatermarkPosition) (size : Q) :
  ((exists c,
       applyWatermark src watermarkFile opacity position size = Resolved c)
   <-> (exists b w, loadImage src = Some b
                    /\ file_image watermarkFile = Some w)
       /\ hasContext2d = true)
  /\ (applyWatermark src watermarkFile opacity position size
      = Rejected NonError
      <-> loadImage src = None \/ file_image watermarkFile = None)
  /\ (applyWatermark src watermarkFile opacity position size
      = Rejected (ErrorObject NoCanvasContext)
      <-> (exists b w, loadImage src = Some b
                       /\ file_image watermarkFile = Some w)
          /\ hasContext2d = false)
  /\ forall e opacity' position' size',
       applyWatermark src watermarkFile opacity position size = Rejected e ->
       applyWatermark src watermarkFile opacity' position' size'
       = Rejected e.
Proof.
  unfold applyWatermark.
  destruct (loadImage src) as [b|];
    [destruct (file_image watermarkFile) as [w|];
     [destruct hasContext2d; cbn [negb]|]|];
    (split; [|split; [|split]]);
    try (split; intros Hx);
    repeat match goal with
           | Hx : exists _, _ |- _ => destruct Hx
           | Hx : _ /\ _ |- _ => destruct Hx
           | Hx : _ \/ _ |- _ => destruct Hx
           end;
    try discriminate; try reflexivity; auto;
    try (eexists; reflexivity);
    try (split; [do 2 eexists; split; reflexivity | reflexivity]).
Qed.


(** X9.  The watermark keeps its 20 pixels from every edge whenever its
    scaled width and height leave room for them: horizontally when the
    width plus 40 is at most the canvas width, which holds for every
    size up to one half on a base image at least 80 pixels wide;
    vertically when the height plus 40 is at most the canvas height. *)
Theorem applyWatermark_within_canvas
        (src : string) (baseImage watermarkImage : image)
        (watermarkFile : File) (opacity : Q)
        (position : WatermarkPosition) (size : Q) :
  loadImage src = Some baseImage ->
  file_image watermarkFile = Some watermarkImage ->
  hasContext2d = true ->
  Z.pos (naturalWidth baseImage) <= 2147483647 ->
  Z.pos (naturalHeight baseImage) <= 2147483647 ->
  exists c x y w h st,
    applyWatermark src watermarkFile opacity position size = Resolved c
    /\ last (canvas_calls c)
       = Some (DrawImageScaled WatermarkImage x y w h, st)
    /\ ((w + 40 <= inject_Z (canvas_width c) ->
         20 <= x /\ x + w <= inject_Z (canvas_width c) - 20)
        /\ (h + 40 <= inject_Z (canvas_height c) ->
            20 <= y /\ y + h <= inject_Z (canvas_height c) - 20)
        /\ (0 <= size -> size <= 1 # 2 -> (80 <= canvas_width c)%Z ->
            w + 40 <= inject_Z (canvas_width c)))%Q.
Proof.
  intros Hbase Hwm Hctx HW HH.
  rewrite (applyWatermark_resolved src baseImage watermarkImage
             watermarkFile opacity position size Hbase Hwm Hctx HW HH).
  eexists. eexists. eexists. eexists. eexists. eexists.
  split; [reflexivity|]. split; [reflexivity|].
  cbn [canvas_width canvas_height].
  unfold placeWatermark, padding.
  fold (px (naturalWidth baseImage)) (px (naturalHeight baseImage)).
  set (W := px (naturalWidth baseImage)).
  set (Hh := px (naturalHeight baseImage)).
  set (hgt := (W * size / _)%Q).
  assert (HW80 : 80 <= Z.pos (naturalWidth baseImage) -> (80 <= W)%Q).
  { intros Hge. unfold W, px. change 80%Q with (inject_Z 80).
    now rewrite <- Zle_Qle. }
  destruct position;
    cbn [wm_x wm_y watermarkWidth watermarkHeight];
    (split; [intros; split; lra|]);
    (split; [intros; split; lra|]);
    intros Hs0 Hs1 Hge; specialize (HW80 Hge);
    assert (W * size <= W * (1 # 2))%Q
      by (apply Qmult_le_l; [unfold W; apply px_pos | exact Hs1]);
    lra.
Qed.

End WatermarkExtras.

Section WatermarkExtrasInstances.
Import JS Canvas FileUtils Vocabulary ExtraVocabulary ExtraSample.

Lemma applyWatermark_outcome_decided_by_checks_witness :
  let host := Sample.host (Some (MkImage 1600 1200)) false in
  @applyWatermark host "img" logoFile (1 # 2) topLeft (15 # 100)
  = Rejected (ErrorObject NoCanvasContext).
Proof.
  intros host.
  apply (proj2 (proj1 (proj2 (proj2
                  (@applyWatermark_outcome_decided_by_checks
                     host "img" logoFile (1 # 2) topLeft (15 # 100)))))).
  split; [|reflexivity].
  exists (MkImage 1600 1200), (MkImage 400 100). split; reflexivity.
Defined.


Lemma applyWatermark_within_canvas_witness :
  let host := Sample.host (Some (MkImage 1600 1200)) true in
  exists c x y w h st,
    @applyWatermark host "img" logoFile (1 # 2) bottomRight (1 # 2)
    = Resolved c
    /\ last (canvas_calls c)
       = Some (DrawImageScaled WatermarkImage x y w h, st)
    /\ (20 <= x /\ x + w <= inject_Z (canvas_width c) - 20)%Q.
Proof.
  intros host.
  destruct (@applyWatermark_within_canvas
              host "img" (MkImage 1600 1200) (MkImage 400 100) logoFile
              (1 # 2) bottomRight (1 # 2))
    as (c & x & y & w & h & st & Hc & Hlast & Hx & _ & Hfit).
  - reflexivity.
  - reflexivity.
  - reflexivity.
  - cbn. lia.
  - cbn. lia.
  - exists c, x, y, w, h, st. split; [exact Hc|]. split; [exact Hlast|].
    apply Hx. apply Hfit.
    + unfold Qle. cbn. lia.
    + unfold Qle. cbn. lia.
    + assert (E : Resolved c
                  = @applyWatermark host "img" logoFile (1 # 2)
                                    bottomRight (1 # 2)) by (symmetry; exact Hc).
      vm_compute in E. injection E as ->. cbn. lia.
Defined.

End WatermarkExtrasInstances.

(** ** [enhanceImage]: the request and what is read from the response *)

Section EnhanceExtras.
Import JS GeminiService EnhanceVocabulary.

Lemma firstInlineData_first (parts : list Part) (data : string) :
  firstInlineData parts = Some data ->
  exists d, firstImagePart parts d /\ data = inline_data d.
Proof.
  induction parts as [|p parts IH]; [discriminate|].
  cbn [firstInlineData]. destruct (part_inlineData p) as [d|] eqn:Ep.
  - intros E. injection E as <-. exists d. split; [|reflexivity].
    exists [], p, parts. repeat split; [constructor | exact Ep].
  - intros E. destruct (IH E) as (d & (before & q & after & -> & Hb & Hq) & ->).
    exists d. split; [|reflexivity].
    exists (p :: before), q, after. repeat split; [|exact Hq].
    constructor; assumption.
Qed.

(** The three ways through the [try] block. *)
Lemma tryEnhance_cases (file : File) (options : BackgroundOptions)
      (ar : string) (rem : remote) :
  (exists e,
      FileUtils.fileToBase64 file = Rejected e
      /\ tryEnhance file options ar rem = (Rejected e, rem))
  \/ (exists f e,
         style options = styleUpload /\ backgroundImage options = Some f
         /\ FileUtils.fileToBase64 f = Rejected e
         /\ tryEnhance file options ar rem = (Rejected e, rem))
  \/ (exists d m req,
         FileUtils.fileToBase64 file = Resolved (d, m)
         /\ (req = [RequestImage d m; RequestText (generatePrompt options ar)]
             /\ (style options <> styleUpload
                 \/ backgroundImage options = None)
             \/ exists f d' m',
                 style options = styleUpload
                 /\ backgroundImage options = Some f
                 /\ FileUtils.fileToBase64 f = Resolved (d', m')
                 /\ req = [RequestImage d m; RequestImage d' m';
                           RequestText (generatePrompt options ar)])
         /\ tryEnhance file options ar rem
            = (match answer rem (length (received rem)) req with
               | Responds response => readResponse response
               | Throws e => Rejected e
               end,
               MkRemote (answer rem) (received rem ++ [req])%list)).
Proof.
  unfold tryEnhance.
  destruct (FileUtils.fileToBase64 file) as [[d m]|e] eqn:Ef.
  2:{ left. exists e. split; reflexivity. }
  right.
  assert (Hplain :
            style options <> styleUpload \/ backgroundImage options = None ->
            (match style options, backgroundImage options with
             | styleUpload, Some f => Some (FileUtils.fileToBase64 f)
             | _, _ => None
             end) = None).
  { intros [Hs|Hb].
    - destruct (style options); try reflexivity. congruence.
    - rewrite Hb. destruct (style options); reflexivity. }
  destruct (style options) eqn:Es;
    try (right; exists d, m; eexists; split; [reflexivity|];
         split; [left; split; [reflexivity | left; discriminate]|];
         unfold generateContent; cbn [app];
         destruct (answer rem _ _); reflexivity).
  destruct (backgroundImage options) as [f|] eqn:Eb.
  2:{ right. exists d, m. eexists. split; [reflexivity|].
      split; [left; split; [reflexivity | right; reflexivity]|].
      unfold generateContent. cbn [app].
      destruct (answer rem _ _); reflexivity. }
  destruct (FileUtils.fileToBase64 f) as [[d' m']|e] eqn:Ebg.
  - right. exists d, m. eexists. split; [reflexivity|].
    split; [right; exists f, d', m'; repeat split; try reflexivity; exact Ebg|].
    unfold generateContent. cbn [app].
    destruct (answer rem _ _); reflexivity.
  - left. exists f, e. repeat split; try reflexivity. exact Ebg.
Qed.

(** X10.  A request reaches the endpoint only with the product image
    read; it holds the product image first, then the background image
    exactly when the style is the uploaded background and a background
    file is given, and the prompt for the options and the aspect ratio
    last. *)
Theorem enhanceImage_request_shape
        (file : File) (options : BackgroundOptions) (ar : string)
        (rem : remote) (req : list requestPart) :
  received (snd (enhanceImage file options ar rem))
  = (received rem ++ [req])%list ->
  exists d m,
    FileUtils.fileToBase64 file = Resolved (d, m)
    /\ (req = [RequestImage d m; RequestText (generatePrompt options ar)]
        /\ (style options <> styleUpload \/ backgroundImage options = None)
        \/ exists f d' m',
            style options = styleUpload
            /\ backgroundImage options = Some f
            /\ FileUtils.fileToBase64 f = Resolved (d', m')
            /\ req = [RequestImage d m; RequestImage d' m';
                      RequestText (generatePrompt options ar)]).
Proof.
  rewrite enhanceImage_caught. cbn [snd]. intros Hrec.
  assert (Hgrow : forall l : list (list requestPart),
             l <> (l ++ [req])%list).
  { intros l E. apply (f_equal (@length _)) in E.
    rewrite length_app in E. cbn in E. lia. }
  destruct (tryEnhance_cases file options ar rem)
    as [(e & _ & Ht) | [(f & e & _ & _ & _ & Ht)
                       | (d & m & req' & Hf & Hshape & Ht)]];
    rewrite Ht in Hrec; cbn [snd received] in Hrec.
  - exfalso. exact (Hgrow _ Hrec).
  - exfalso. exact (Hgrow _ Hrec).
  - apply app_inv_head in Hrec. injection Hrec as ->.
    exists d, m. split; [exact Hf | exact Hshape].
Qed.

(** X11.  When the product image cannot be read, or the background
    image of the uploaded-background style cannot, [enhanceImage] fails
    with the reader's error seen through the [catch] block, and the
    endpoint is left as it was: no request is sent. *)
Theorem enhanceImage_unreadable_sends_nothing
        (file : File) (options : BackgroundOptions) (ar : string)
        (rem : remote) (e : thrown) :
  FileUtils.fileToBase64 file = Rejected e
  \/ (readable file
      /\ exists f, style options = styleUpload
                   /\ backgroundImage options = Some f
                   /\ FileUtils.fileToBase64 f = Rejected e) ->
  enhanceImage file options ar rem = (Rejected (rethrow e), rem).
Proof.
  intros Hcase. rewrite enhanceImage_caught.
  destruct (tryEnhance_cases file options ar rem)
    as [(e' & Hf & Ht) | [(f & e' & Hs & Hb & Hbg & Ht)
                         | (d & m & req & Hf & Hshape & Ht)]].
  - rewrite Ht. cbn.
    destruct Hcase as [Hrej | [(d & m & Hr) _]]; [|congruence].
    rewrite Hrej in Hf. now injection Hf as <-.
  - rewrite Ht. cbn.
    destruct Hcase as [Hrej | [(d & m & Hr) (f' & _ & Hb' & Hbg')]].
    + unfold tryEnhance in Ht. rewrite Hrej in Ht.
      injection Ht as <-. reflexivity.
    + rewrite Hb in Hb'. injection Hb' as <-.
      rewrite Hbg in Hbg'. now injection Hbg' as <-.
  - exfalso.
    destruct Hcase as [Hrej | [_ (f & Hs & Hb & Hbg)]]; [congruence|].
    destruct Hshape as [[_ [Hns | Hnone]] | (f' & d' & m' & _ & Hb' & Hbg' & _)];
      congruence.
Qed.

(** X12.  Unless the style is the uploaded background, the background
    file of the options plays no part: the outcome and the request sent
    are the same with any other background file, readable or not. *)
Theorem enhanceImage_ignores_unused_background
        (file : File) (options : BackgroundOptions) (ar : string)
        (rem : remote) (other : option File) :
  style options <> styleUpload ->
  enhanceImage file options ar rem
  = enhanceImage file
                 (MkOptions (style options) (color1 options)
                            (color2 options) other)
                 ar rem.
Proof.
  intros Hs. unfold enhanceImage, tryEnhance, generatePrompt.
  cbn [style color1 color2 backgroundImage].
  destruct (style options); try reflexivity. congruence.
Qed.

(** X13.  Only the first candidate of the response is read: two
    responses with the same first candidate (or both with none) give
    the same outcome, whatever their other candidates hold. *)
Theorem enhanceImage_reads_first_candidate_only
        (file : File) (options : BackgroundOptions) (ar : string)
        (rem1 rem2 : remote) (response1 response2 : Response) :
  inputsReadable file options ->
  answersWith rem1 response1 -> answersWith rem2 response2 ->
  firstCandidate response1 = firstCandidate response2 ->
  fst (enhanceImage file options ar rem1)
  = fst (enhanceImage file options ar rem2).
Proof.
  intros Hin H1 H2 Hsame.
  rewrite (enhanceImage_answered file options ar rem1 response1 Hin H1).
  rewrite (enhanceImage_answered file options ar rem2 response2 Hin H2).
  f_equal. unfold firstCandidate in Hsame. unfold readResponse.
  destruct (candidates response1) as [[|c1 l1]|],
           (candidates response2) as [[|c2 l2]|];
    try discriminate; try reflexivity.
  now injection Hsame as ->.
Qed.

(** X14.  An image is returned only from the response: when
    [enhanceImage] resolves, the endpoint answered the one request with a
    response whose first candidate is not blocked, and the result is the
    data of the first part of that candidate with inline data. *)
Theorem enhanceImage_resolved_from_response
        (file : File) (options : BackgroundOptions) (ar : string)
        (rem : remote) (data : string) :
  fst (enhanceImage file options ar rem) = Resolved data ->
  exists req response candidate parts d,
    received (snd (enhanceImage file options ar rem))
    = (received rem ++ [req])%list
    /\ answer rem (length (received rem)) req = Responds response
    /\ firstCandidate response = Some candidate
    /\ isBlocked candidate = false
    /\ contentParts candidate = Some parts
    /\ firstImagePart parts d /\ data = inline_data d.
Proof.
  rewrite enhanceImage_caught. cbn [fst snd]. intros Hres.
  destruct (tryEnhance_cases file options ar rem)
    as [(e & _ & Ht) | [(f & e & _ & _ & _ & Ht)
                       | (d & m & req & Hf & Hshape & Ht)]];
    rewrite Ht in Hres |- *; cbn [fst snd caught received] in Hres |- *;
    try discriminate.
  destruct (answer rem (length (received rem)) req) as [response|e] eqn:Ea;
    [|discriminate].
  unfold readResponse in Hres.
  destruct (candidates response) as [[|candidate rest]|] eqn:Ec;
    try discriminate.
  destruct (isBlocked candidate) eqn:Eb; [discriminate|].
  destruct (contentParts candidate) as [parts|] eqn:Ep; [|discriminate].
  destruct (firstInlineData parts) as [data'|] eqn:Ei.
  - cbn in Hres. injection Hres as ->.
    destruct (firstInlineData_first parts data Ei) as (blob & Hfirst & ->).
    exists req, response, candidate, parts, blob.
    split; [reflexivity|]. split; [exact Ea|].
    split; [unfold firstCandidate; now rewrite Ec|].
    split; [exact Eb|]. split; [exact Ep|]. split; [exact Hfirst|].
    reflexivity.
  - destruct (0 <? _)%nat; discriminate.
Qed.

End EnhanceExtras.

Section EnhanceExtrasInstances.
Import JS GeminiService EnhanceVocabulary Sample.

Lemma enhanceImage_request_shape_witness :
  let options := MkOptions styleSolid (Some "#112233") None None in
  let rem := MkRemote (fun _ _ => Throws (ErrorObject (SdkError "offline")))
                      [] in
  exists d m,
    FileUtils.fileToBase64 photo = Resolved (d, m)
    /\ d = "/9j/4AAQSkZJRg".
Proof.
  intros options rem.
  destruct (enhanceImage_request_shape
              photo options "1:1" rem
              [RequestImage "/9j/4AAQSkZJRg" "image/jpeg";
               RequestText (generatePrompt options "1:1")] eq_refl)
    as (d & m & Hf & _).
  exists d, m. split; [exact Hf|].
  assert (E : Resolved (d, m) = FileUtils.fileToBase64 photo)
    by (symmetry; exact Hf).
  injection E as -> _. reflexivity.
Defined.

Lemma enhanceImage_unreadable_sends_nothing_witness :
  let broken := MkFile "image/png" (Some "no payload here") None in
  let rem := MkRemote (fun _ _ => Responds (MkResponse None)) [] in
  enhanceImage broken (MkOptions styleDefault None None None) "1:1" rem
  = (Rejected (ErrorObject (GeminiApiError FailedToReadBase64)), rem).
Proof.
  intros broken rem.
  apply (enhanceImage_unreadable_sends_nothing
           broken (MkOptions styleDefault None None None) "1:1" rem
           (ErrorObject FailedToReadBase64)).
  left. reflexivity.
Defined.

Lemma enhanceImage_ignores_unused_background_witness :
  let broken := MkFile "image/png" None None in
  let rem := MkRemote (fun _ _ => Responds (MkResponse None)) [] in
  enhanceImage photo (MkOptions styleBlur None None None) "1:1" rem
  = enhanceImage photo (MkOptions styleBlur None None (Some broken))
                 "1:1" rem.
Proof.
  intros broken rem.
  apply (enhanceImage_ignores_unused_background
           photo (MkOptions styleBlur None None None) "1:1" rem
           (Some broken)).
  discriminate.
Defined.

Lemma enhanceImage_reads_first_candidate_only_witness :
  let textOnly := MkCandidate (Some "STOP")
                              (Some [MkRespPart None (Some "Sorry.")]) in
  let withImage :=
    MkCandidate (Some "STOP")
                (Some [MkRespPart (Some (MkInline "iVBORw0KGgo" "image/png"))
                                  None]) in
  let r1 := MkResponse (Some [textOnly]) in
  let r2 := MkResponse (Some [textOnly; withImage]) in
  fst (enhanceImage photo (MkOptions styleDefault None None None) "1:1"
                    (MkRemote (fun _ _ => Responds r1) []))
  = fst (enhanceImage photo (MkOptions styleDefault None None None) "1:1"
                      (MkRemote (fun _ _ => Responds r2) [])).
Proof.
  intros textOnly withImage r1 r2.
  apply (enhanceImage_reads_first_candidate_only
           photo (MkOptions styleDefault None None None) "1:1"
           (MkRemote (fun _ _ => Responds r1) [])
           (MkRemote (fun _ _ => Responds r2) []) r1 r2).
  - exact photo_readable.
  - intros parts. reflexivity.
  - intros parts. reflexivity.
  - reflexivity.
Defined.

Lemma enhanceImage_resolved_from_response_witness :
  let response :=
    MkResponse
      (Some [MkCandidate
               (Some "STOP")
               (Some [MkRespPart (Some (MkInline "iVBORw0KGgo" "image/png"))
                                 None])]) in
  let rem := MkRemote (fun _ _ => Responds response) [] in
  exists candidate,
    firstCandidate response = Some candidate
    /\ isBlocked candidate = false.
Proof.
  intros response rem.
  destruct (enhanceImage_resolved_from_response
              photo (MkOptions styleDefault None None None) "1:1" rem
              "iVBORw0KGgo" eq_refl)
    as (req & response' & candidate & parts & d & _ & Ha & Hc & Hb & _).
  cbn in Ha. injection Ha as <-.
  exists candidate. split; [exact Hc | exact Hb].
Defined.

End EnhanceExtrasInstances.

(** ** Usage counters: keys, loading and increments *)

Section CounterExtras.
Import JS App CounterVocabulary ExtraVocabulary.
Context `{Host}.

(** X15.  The key of a bucket names the local calendar day: two
    instants get the same key exactly when they fall on the same local
    day. *)
Theorem getISODateString_same_key_same_day (tz t1 t2 : Z) :
  dayInRange (localDay tz t1) -> dayInRange (localDay tz t2) ->
  getISODateString tz t1 = getISODateString tz t2
  <-> localDay tz t1 = localDay tz t2.
Proof.
  intros H1 H2. rewrite !getISODateString_day. split.
  - now apply isoOfDay_inj.
  - now intros ->.
Qed.

Lemma calculateStats_empty (tz now : Z) :
  calculateStats tz now emptyObject = MkUsage 0 0 0 0 0.
Proof.
  unfold calculateStats. cbv zeta. cbn [stored_dailyCounts stored_total emptyObject default].
  change (seqZ 0 7) with [0; 1; 2; 3; 4; 5; 6]. cbn [fold_left].
  unfold countAt. rewrite !lookup_empty. cbn [default].
  rewrite map_fold_empty. reflexivity.
Qed.

(** X16.  After the mount effect the stored item is never of the old
    shape, and running the effect again, at any later instant, leaves
    the store as it is. *)
Theorem loadStats_settles (tz now later : Z) (st : storage) :
  currentShape (fst (loadStats tz now st))
  /\ fst (loadStats tz later (fst (loadStats tz now st)))
     = fst (loadStats tz now st).
Proof.
  destruct st as [[|o]|]; cbn [loadStats fst]; try (split; [exact I | reflexivity]).
  destruct (isOldShape o) eqn:Eo; cbn [fst].
  - assert (Hm : isOldShape (migrate now o) = false).
    { unfold isOldShape in Eo. unfold migrate.
      destruct (stored_today o); [reflexivity | discriminate]. }
    split; [exact Hm|]. cbn [loadStats]. now rewrite Hm.
  - split; [exact Eo|]. cbn [loadStats]. now rewrite Eo.
Qed.

(** X17.  The mount effect never changes the running total: the total
    it shows and the total it leaves in the store are the stored one (0
    for a missing or unparseable item), whether or not the item is
    migrated and whether or not the count of the day is kept. *)
Theorem loadStats_keeps_total (tz now : Z) (st : storage) :
  total (snd (loadStats tz now st)) = totalOf st
  /\ totalOf (fst (loadStats tz now st)) = totalOf st.
Proof.
  destruct st as [[|o]|]; cbn [loadStats fst snd];
    try (rewrite calculateStats_empty; split; reflexivity).
  destruct (isOldShape o) eqn:Eo; cbn [fst snd].
  - unfold isOldShape in Eo. unfold migrate, totalOf.
    destruct (stored_today o); [|discriminate]. split; reflexivity.
  - split; reflexivity.
Qed.


(** X19.  The statistics [incrementUsage] shows are those of the item
    it has just stored: the mount effect, run at the same instant on the
    new store, shows the same and changes nothing. *)
Theorem incrementUsage_shows_what_it_stores (tz now : Z) (st : storage) :
  loadStats tz now (fst (incrementUsage tz now st))
  = incrementUsage tz now st.
Proof. destruct st as [[|o]|]; reflexivity. Qed.

Lemma incrementAt_totalOf (tz : Z) (times : list Z) (st : storage) :
  totalOf (incrementAt tz times st)
  = totalOf st + Z.of_nat (length times).
Proof.
  revert st. induction times as [|t times IH]; intros st.
  - cbn. lia.
  - rewrite incrementAt_cons, IH.
    destruct (incrementUsage_effect tz t st) as (Et & _).
    cbv zeta in Et. rewrite Et. cbn [length]. lia.
Qed.




End CounterExtras.

(** ** Usage counters: the figures count the increments *)

Section CountingIncrements.
Import JS JSDate App CounterVocabulary ExtraVocabulary.
Context `{Host}.

Lemma incrementAt_shape (tz : Z) (times : list Z) (st : storage) :
  currentShape st -> currentShape (incrementAt tz times st).
Proof.
  revert st. induction times as [|t times IH]; intros st Hs; [exact Hs|].
  rewrite incrementAt_cons. apply IH.
  now destruct (incrementUsage_effect tz t st) as (_ & _ & Hs').
Qed.

(** The bucket of a day holds the number of increments of that day. *)
Lemma incrementAt_counts (tz n : Z) (times : list Z) (st : storage) :
  Forall (fun t => dayInRange (localDay tz t)) times -> dayInRange n ->
  countAt (countsOf (incrementAt tz times st)) (isoOfDay n)
  = countAt (countsOf st) (isoOfDay n)
    + Z.of_nat (length (onDay tz n times)).
Proof.
  intros Hr Hn. revert st.
  induction Hr as [|t times Ht _ IH]; intros st.
  - cbn. lia.
  - rewrite incrementAt_cons, IH.
    destruct (incrementUsage_effect tz t st) as (_ & Ec & _).
    cbv zeta in Ec. rewrite Ec, countAt_insert.
    unfold onDay. cbn [List.filter]. fold (onDay tz n times).
    destruct (localDay tz t =? n) eqn:E.
    + apply Z.eqb_eq in E. rewrite E, decide_True by reflexivity.
      cbn [length]. lia.
    + apply Z.eqb_neq in E.
      rewrite decide_False by (apply isoOfDay_neq; assumption). lia.
Qed.

(** X22.  From an empty store, after increments at any instants, the
    figures computed at [now] count those increments: today the ones of
    the local day of [now], yesterday the ones of the day before, the
    last seven days those of that day and the six before it, and the
    total all of them. *)
Theorem calculateStats_counts_increments
        (tz now : Z) (times : list Z) :
  Forall (fun t => dayInRange (localDay tz t)) times ->
  dayInRange (localDay tz now - 6) -> dayInRange (localDay tz now) ->
  let day := localDay tz now in
  let on n := Z.of_nat (length (onDay tz n times)) in
  let stats := snd (loadStats tz now (incrementAt tz times None)) in
  today stats = on day
  /\ yesterday stats = on (day - 1)
  /\ last7Days stats
     = on day + on (day - 1) + on (day - 2) + on (day - 3) + on (day - 4)
       + on (day - 5) + on (day - 6)
  /\ total stats = Z.of_nat (length times).
Proof.
  intros Hr H6 H0. cbv zeta.
  set (st := incrementAt tz times None).
  rewrite (loadStats_current tz now st) by (apply incrementAt_shape; exact I).
  destruct (calculateStats_fields tz now (objectOf st))
    as (Et & Ey & E7 & Etot).
  cbv zeta in Et, Ey, E7, Etot.
  fold (countsOf st) in Et, Ey, E7. fold (totalOf st) in Etot.
  rewrite Et, Ey, E7, Etot. unfold st.
  rewrite !incrementAt_counts by (try assumption; unfold dayInRange in *; lia).
  rewrite incrementAt_totalOf.
  assert (E0 : forall k, countAt (countsOf None) k = 0) by reflexivity.
  rewrite !E0. change (totalOf None) with 0.
  repeat split; lia.
Qed.

Lemma monthFold_insert (test : string -> bool) (counts : gmap string Z)
      (k : string) (n : Z) :
  map_fold (fun key v acc => if test key then acc + v else acc) 0
           (<[k := n]> counts)
  = map_fold (fun key v acc => if test key then acc + v else acc) 0 counts
    - (if test k then countAt counts k else 0)
    + (if test k then n else 0).
Proof.
  unfold countAt.
  assert (Hcomm : forall (j1 j2 : string) (z1 z2 y : Z),
             (if test j1 then (if test j2 then y + z2 else y) + z1
              else if test j2 then y + z2 else y)
             = (if test j2 then (if test j1 then y + z1 else y) + z2
                else if test j1 then y + z1 else y)).
  { intros. destruct (test j1), (test j2); lia. }
  destruct (counts !! k) as [old|] eqn:E; cbn.
  - rewrite <- (insert_delete_id counts k old E) at 2.
    rewrite <- (insert_delete_eq counts k n).
    rewrite !map_fold_insert_L;
      try (apply lookup_delete_eq); try (intros; apply Hcomm).
    destruct (test k); lia.
  - rewrite map_fold_insert_L; [|intros; apply Hcomm | exact E].
    destruct (test k); lia.
Qed.

Lemma digits_free_dash (w : nat) (n : Z) : freeOf "-" (digits w n).
Proof.
  unfold freeOf. revert n. induction w as [|w IH]; intros n; cbn.
  - tauto.
  - intros [E|Hin]; [|exact (IH n Hin)].
    revert E. apply digit_not. cbn. lia.
Qed.

(** A date with a four-digit year splits into year, month and day. *)
Lemma split_date (y m d : Z) :
  0 <= y <= 9999 ->
  split "-" (dateString (y, m, d)) = [digits 4 y; digits 2 m; digits 2 d].
Proof.
  intros Hy. unfold dateString, yearString.
  replace ((0 <=? y) && (y <=? 9999)) with true
    by (symmetry; apply andb_true_intro; split; apply Z.leb_le; lia).
  change (digits 4 y ++ "-" ++ digits 2 m ++ "-" ++ digits 2 d)%string
    with (digits 4 y ++ String "-" (digits 2 m ++ String "-" (digits 2 d)))%string.
  rewrite split_prefix by apply digits_free_dash.
  rewrite split_prefix by apply digits_free_dash.
  rewrite split_free by apply digits_free_dash. reflexivity.
Qed.

Lemma strictEq_read (x : jsnum) (q : Q) (a b : Z) :
  x = Fin q -> (q == inject_Z a)%Q ->
  strictEq x (Fin (inject_Z b)) = (a =? b).
Proof.
  intros -> Hq. cbn.
  destruct (a =? b) eqn:E.
  - apply Z.eqb_eq in E. subst b. now apply Qeq_bool_iff.
  - apply Z.eqb_neq in E.
    destruct (Qeq_bool q (inject_Z b)) eqn:Eq; [|reflexivity].
    apply Qeq_bool_iff in Eq. exfalso. apply E.
    unfold Qeq in Hq, Eq. cbn in Hq, Eq.
    apply (Z.mul_reg_r _ _ (Z.pos (Qden q))); lia.
Qed.

(** The month test on the key of a day. *)
Lemma inMonthKey_day (tz now n : Z) :
  readsDates -> fourDigitYear n ->
  inMonthKey (getFullYear tz now) (getMonth tz now) (isoOfDay n)
  = let '(y, m) := monthOfDay n in
    let '(y', m') := monthOfDay (localDay tz now) in
    (y =? y') && (m =? m').
Proof.
  intros [Hyear Hmonth] Hy.
  unfold fourDigitYear, monthOfDay in Hy.
  unfold inMonthKey, isoOfDay, monthOfDay, getFullYear, getMonth, localDay.
  pose proof (civilFromDays_range n) as Hr.
  destruct (civilFromDays n) as [[y m] d]. cbn [fst] in Hy.
  destruct (civilFromDays (Day (LocalTime tz now))) as [[y' m'] d'].
  rewrite (split_date y m d Hy).
  cbn [List.map lookup list_lookup default]. unfold id.
  destruct (Hyear y Hy) as (qy & Ey & Hqy).
  destruct (Hmonth m ltac:(lia)) as (qm & Em & Hqm).
  rewrite (strictEq_read _ qy y y' Ey Hqy).
  rewrite Em. cbn [sub].
  assert (Hm1 : (qm - 1 == inject_Z (m - 1))%Q).
  { rewrite Hqm. unfold Zminus. rewrite inject_Z_plus. reflexivity. }
  rewrite (strictEq_read _ (qm - 1)%Q (m - 1) (m' - 1) eq_refl Hm1).
  f_equal. destruct (m =? m') eqn:E.
  - apply Z.eqb_eq in E. apply Z.eqb_eq. lia.
  - apply Z.eqb_neq in E. apply Z.eqb_neq. lia.
Qed.

Lemma thisMonth_fold (tz now : Z) (o : statsObject) :
  thisMonth (calculateStats tz now o)
  = map_fold (fun key v acc =>
                if inMonthKey (getFullYear tz now) (getMonth tz now) key
                then acc + v else acc)
             0 (default ∅ (stored_dailyCounts o)).
Proof. reflexivity. Qed.

(** X23.  When [Number] reads the year and the month of a date, and the
    years are written with four digits, the figure of the month counts
    the increments made in the local month of [now], and no other. *)
Theorem calculateStats_month_counts_increments
        (tz now : Z) (times : list Z) :
  readsDates ->
  Forall (fun t => fourDigitYear (localDay tz t)) times ->
  thisMonth (snd (loadStats tz now (incrementAt tz times None)))
  = Z.of_nat (length (inMonthOf tz now times)).
Proof.
  intros Hreads Hyears.
  assert (Hgen : forall st,
             currentShape st ->
             thisMonth (snd (loadStats tz now (incrementAt tz times st)))
             = thisMonth (snd (loadStats tz now st))
               + Z.of_nat (length (inMonthOf tz now times))).
  { induction Hyears as [|t times Ht _ IH]; intros st Hs.
    - cbn [incrementAt fold_left inMonthOf List.filter length]. cbn. lia.
    - rewrite incrementAt_cons.
      destruct (incrementUsage_effect tz t st) as (_ & Ec & Hs').
      cbv zeta in Ec.
      rewrite (IH _ Hs').
      rewrite !loadStats_current by assumption.
      rewrite !thisMonth_fold.
      fold (countsOf (fst (incrementUsage tz t st))). fold (countsOf st).
      rewrite Ec, monthFold_insert.
      rewrite (inMonthKey_day tz now (localDay tz t) Hreads Ht).
      unfold inMonthOf. cbn [List.filter].
      destruct (monthOfDay (localDay tz t)) as [y m].
      destruct (monthOfDay (localDay tz now)) as [y' m'].
      destruct ((y =? y') && (m =? m')); cbn [length]; lia. }
  rewrite (Hgen None I).
  cbn [loadStats snd]. rewrite calculateStats_empty. cbn [thisMonth]. lia.
Qed.

End CountingIncrements.

Section CountingInstances.
Import JS JSDate App CounterVocabulary ExtraVocabulary.

(** 08:00 and 19:00 of 1 January 2024, in a zone seven hours ahead of
    UTC. *)
Lemma getISODateString_same_key_same_day_witness :
  getISODateString (-420) 1704070800000
  = getISODateString (-420) 1704110400000
  <-> localDay (-420) 1704070800000 = localDay (-420) 1704110400000.
Proof.
  apply getISODateString_same_key_same_day;
    unfold dayInRange; vm_compute; split; discriminate.
Defined.


(** Increments on 1, 1, 2, 3, 3 and 3 January 2024, read on the 3rd. *)
Lemma calculateStats_counts_increments_witness :
  let host := Sample.host None false in
  let times := [1704070800000; 1704110400000; 1704168000000;
                1704250800000; 1704254400000; 1704290400000] in
  let stats :=
    snd (@loadStats host (-420) 1704294000000
           (@incrementAt host (-420) times None)) in
  let on n := Z.of_nat (length (onDay (-420) n times)) in
  today stats = on 19725
  /\ yesterday stats = on 19724
  /\ last7Days stats
     = on 19725 + on 19724 + on 19723 + on 19722 + on 19721 + on 19720
       + on 19719
  /\ total stats = 6.
Proof.
  intros host times.
  apply (@calculateStats_counts_increments host (-420) 1704294000000 times).
  - unfold dayInRange.
    repeat (constructor; [vm_compute; split; discriminate|]). constructor.
  - unfold dayInRange. vm_compute. split; discriminate.
  - unfold dayInRange. vm_compute. split; discriminate.
Defined.

(** The sample [Number] reads the digits of a date. *)
Lemma sample_readsDates (img : option image) (ctx : bool) :
  @readsDates (Sample.host img ctx).
Proof.
  set (check := fun w n =>
                  match Sample.decimalNumber (digits w n) with
                  | Fin q => Qeq_bool q (inject_Z n)
                  | NaN => false
                  end).
  assert (Hread : forall w n, check w n = true ->
                         @readsAs (Sample.host img ctx) (digits w n) n).
  { intros w n Hc. unfold check in Hc. unfold readsAs. cbn [Number Sample.host].
    destruct (Sample.decimalNumber (digits w n)) as [|q]; [discriminate|].
    exists q. split; [reflexivity | now apply Qeq_bool_iff]. }
  assert (Hy : forallb (check 4%nat) (List.map Z.of_nat (List.seq 0 (Z.to_nat 10000))) = true)
    by (vm_compute; reflexivity).
  assert (Hm : forallb (check 2%nat) (List.map Z.of_nat (List.seq 1 12)) = true)
    by (vm_compute; reflexivity).
  rewrite forallb_forall in Hy, Hm.
  split; intros n Hn; apply Hread.
  - apply Hy. apply in_map_iff. exists (Z.to_nat n).
    split; [lia | apply in_seq; lia].
  - apply Hm. apply in_map_iff. exists (Z.to_nat n).
    split; [lia | apply in_seq; lia].
Qed.

(** Increments on 30 and 31 December 2023 and on 1, 2 and 3 January
    2024, read on 3 January: three of them are of the month. *)
Lemma calculateStats_month_counts_increments_witness :
  let host := Sample.host None false in
  let times := [1703898000000; 1703984400000; 1704070800000;
                1704168000000; 1704250800000] in
  thisMonth (snd (@loadStats host (-420) 1704294000000
                    (@incrementAt host (-420) times None)))
  = Z.of_nat (length (inMonthOf (-420) 1704294000000 times)).
Proof.
  intros host times.
  apply (@calculateStats_month_counts_increments
           host (-420) 1704294000000 times).
  - apply sample_readsDates.
  - unfold fourDigitYear.
    repeat (constructor; [vm_compute; split; discriminate|]). constructor.
Defined.

End CountingInstances.

(** ** [handleEnhance]: what is counted, sent and shown *)

Section HandleEnhance.
Import JS FileUtils GeminiService App AppHandlers.
Import CounterVocabulary EnhanceVocabulary ExtraVocabulary.
Context `{Host}.

(** What [enhanceImage] rejects with is an [Error] made by its [catch]
    block. *)
Lemma enhanceImage_rejection file options ar rem e :
  fst (enhanceImage file options ar rem) = Rejected e ->
  exists m, e = ErrorObject m
            /\ (m = UnknownEnhancementError
                \/ exists inner, m = GeminiApiError inner).
Proof.
  unfold enhanceImage.
  destruct (tryEnhance file options ar rem) as [[d|e'] r']; cbn [fst];
    [discriminate|].
  intros [= <-]. destruct e' as [m|]; cbn [rethrow]; eauto.
Qed.

Lemma stoppedByChecks_iff (s : appState) :
  stoppedByChecks s
  <-> imageFile s = None
      \/ isUpload (style (backgroundOptions (controls s)))
         && isNull (backgroundImageFile (controls s)) = true.
Proof.
  unfold stoppedByChecks. split; intros [Hn|Hu]; auto; right.
  - destruct Hu as [-> ->]. reflexivity.
  - apply andb_true_iff in Hu. destruct Hu as [Hs Hb].
    destruct (style (backgroundOptions (controls s))); try discriminate.
    destruct (backgroundImageFile (controls s)); [discriminate|].
    split; reflexivity.
Qed.

(** The handler once the two checks are passed. *)
Lemma handleEnhance_passed (tz now : Z) (meanwhile : appState -> appState)
      (s : appState) (st : storage) (r : remote) (file : File) :
  imageFile s = Some file -> ~ stoppedByChecks s ->
  let s2 :=
    meanwhile
      (setLoadingMessage AiProcessing
         (setFinalImage None
            (setEnhancedImage None
               (setError None (setLoading true s))))) in
  handleEnhance tz now meanwhile s st r
  = match fst (enhancementOf s file r) with
    | Resolved data =>
        (setLoadingMessage NoText
           (setLoading false
              (setUsageStats
                 (snd (incrementUsage tz now st))
                 (setEnhancedImage
                    (Some ("data:image/png;base64," ++ data)%string) s2))),
         fst (incrementUsage tz now st),
         snd (enhancementOf s file r))
    | Rejected err =>
        (setLoadingMessage NoText
           (setLoading false
              (setFinalImage None
                 (setEnhancedImage None
                    (setError (Some (shown err)) s2)))),
         st, snd (enhancementOf s file r))
    end.
Proof.
  intros Hf Hpass. cbv zeta. unfold handleEnhance, enhancementOf.
  rewrite Hf.
  destruct (isUpload _ && isNull _) eqn:Eg.
  - exfalso. apply Hpass. apply stoppedByChecks_iff. now right.
  - cbv zeta.
    destruct (enhanceImage file _ _ r) as [[data|err] r']; cbn [fst snd].
    + destruct (incrementUsage tz now st) as [st' stats]. reflexivity.
    + reflexivity.
Qed.


(** X25.  When one of its two checks stops [handleEnhance], nothing is
    sent to the endpoint, the store is untouched and the state changes
    in its error only, which names the missing input. *)
Theorem handleEnhance_stopped_by_checks
        (tz now : Z) (meanwhile : appState -> appState)
        (s : appState) (st : storage) (r : remote) :
  stoppedByChecks s ->
  exists n,
    handleEnhance tz now meanwhile s st r = (setError (Some n) s, st, r)
    /\ (n = ChooseImageFirst <-> imageFile s = None)
    /\ (n = UploadBackgroundFirst <-> imageFile s <> None).
Proof.
  intros Hs. apply stoppedByChecks_iff in Hs. unfold handleEnhance.
  destruct (imageFile s) as [file|] eqn:Ef.
  - destruct Hs as [Hn|Hu]; [discriminate|]. rewrite Hu.
    exists UploadBackgroundFirst. split; [reflexivity|].
    split; split; try discriminate; try reflexivity;
      intros Hx; now contradiction Hx.
  - exists ChooseImageFirst. split; [reflexivity|].
    split; split; try discriminate; try reflexivity;
      intros Hx; now contradiction Hx.
Qed.

(** X26.  When [enhanceImage] rejects, the error shown is the message
    of its [Error], which is the unknown-enhancement message or a
    message with the prefix of the service; the fallback text of the
    handler is never shown.  The two images are cleared, the loading
    flag is lowered and the store is untouched. *)
Theorem handleEnhance_failure_message
        (tz now : Z) (meanwhile : appState -> appState)
        (s : appState) (st : storage) (r : remote)
        (file : File) (err : thrown) :
  imageFile s = Some file -> ~ stoppedByChecks s ->
  fst (enhancementOf s file r) = Rejected err ->
  let '(s', st', r') := handleEnhance tz now meanwhile s st r in
  exists m,
    err = ErrorObject m
    /\ (m = UnknownEnhancementError \/ exists inner, m = GeminiApiError inner)
    /\ error s' = Some (ErrorMessage m)
    /\ error s' <> Some UnknownError
    /\ enhancedImage s' = None /\ finalImage s' = None
    /\ loading s' = false /\ loadingMessage s' = NoText
    /\ st' = st.
Proof.
  intros Hf Hpass Hrej.
  rewrite (handleEnhance_passed tz now meanwhile s st r file Hf Hpass).
  rewrite Hrej.
  destruct (enhanceImage_rejection _ _ _ _ _ Hrej) as (m & -> & Hm).
  exists m. cbn. repeat split; try assumption; try reflexivity.
  discriminate.
Qed.

End HandleEnhance.

Section HandleEnhanceInstances.
Import JS FileUtils GeminiService App AppHandlers.
Import CounterVocabulary EnhanceVocabulary ExtraVocabulary.

(** No product image is chosen. *)
Lemma handleEnhance_stopped_by_checks_witness :
  let host := Sample.host None false in
  let s := ExtraSample.idle (ExtraSample.panel None None styleDefault)
                            None None in
  let r := MkRemote (fun _ _ => Throws NonError) [] in
  exists n,
    @handleEnhance host (-420) 1704070800000 id s None r
    = (setError (Some n) s, None, r)
    /\ (n = ChooseImageFirst <-> imageFile s = None)
    /\ (n = UploadBackgroundFirst <-> imageFile s <> None).
Proof.
  intros host s r.
  apply (@handleEnhance_stopped_by_checks host (-420) 1704070800000 id s None r).
  left. reflexivity.
Defined.

(** The reader fails on the product image. *)
Lemma handleEnhance_failure_message_witness :
  let host := Sample.host None false in
  let s := ExtraSample.idle (ExtraSample.panel None None styleDefault)
                            (Some ExtraSample.brokenFile) None in
  let r := MkRemote (fun _ _ => Throws NonError) [] in
  let '(s', st', r') :=
    @handleEnhance host (-420) 1704070800000 id s None r in
  exists m,
    ErrorObject UnknownEnhancementError = ErrorObject m
    /\ (m = UnknownEnhancementError \/ exists inner, m = GeminiApiError inner)
    /\ error s' = Some (ErrorMessage m)
    /\ error s' <> Some UnknownError
    /\ enhancedImage s' = None /\ finalImage s' = None
    /\ loading s' = false /\ loadingMessage s' = NoText
    /\ st' = None.
Proof.
  intros host s r.
  apply (@handleEnhance_failure_message
           host (-420) 1704070800000 id s None r ExtraSample.brokenFile
           (ErrorObject UnknownEnhancementError)).
  - reflexivity.
  - intros [Hn|[Hs _]]; discriminate.
  - reflexivity.
Defined.

End HandleEnhanceInstances.

(** ** [processImageFinalization]: the watermark follows the crop *)

Section Finalization.
Import JS Canvas FileUtils AppHandlers ExtraVocabulary.
Context `{Host}.
Variable toDataURL : canvas -> string.

Lemma setDimension_bounds (dflt : Z) (q : Q) :
  0 <= dflt <= 2147483647 -> 0 <= setDimension dflt q <= 2147483647.
Proof.
  intros Hd. unfold setDimension. cbv zeta.
  pose proof (Z.mod_pos_bound (Qtrunc q) (2 ^ 32) ltac:(lia)) as Hm.
  destruct (Qtrunc q mod 2 ^ 32 <=? 2147483647) eqn:E; [|lia].
  apply Z.leb_le in E. lia.
Qed.

Lemma applyTitle_resolved_inv (src : string) (parts : list titlePart)
      (family : string) (sub : option SubtitleOptions) (ar : string)
      (c : canvas) :
  applyTitle src parts family sub ar = Resolved c ->
  hasContext2d = true
  /\ 0 <= canvas_width c <= 2147483647
  /\ 0 <= canvas_height c <= 2147483647.
Proof.
  unfold applyTitle.
  destruct (loadImage src) as [img|]; [|discriminate].
  destruct hasContext2d; cbn [negb]; [|discriminate]. cbv zeta.
  destruct (negb _ || negb _); [discriminate|].
  intros [= <-]. rewrite compose_width, compose_height.
  split; [reflexivity|].
  split; apply setDimension_bounds; lia.
Qed.

(** X27.  With a watermark chosen, the final image is the watermark
    drawn over the decoded result of [applyTitle]: when the browser
    decodes that result with the size of its canvas, the final canvas
    has that size, and the watermark is placed in it with a width that
    is the chosen fraction of the width after the crop, not of the
    enhanced image.  Nothing is rejected, and of the state only the
    final image is set after the loading message. *)
Theorem processImageFinalization_watermark_on_cropped
        (meanwhile : appState -> appState) (s : appState)
        (src : string) (titled : canvas) (decoded : image)
        (file : File) (watermarkImage : image) :
  let c := controls s in
  enhancedImage s = Some src -> src <> "" ->
  applyTitle src (titlePartsOf c) (fontFamily c) (Some (subtitleOf c))
             (aspectRatio c)
  = Resolved titled ->
  loadImage (toDataURL titled) = Some decoded -> sizeOf titled decoded ->
  watermarkFile c = Some file -> file_image file = Some watermarkImage ->
  let p := placeWatermark (canvas_width titled) (canvas_height titled)
                          decoded watermarkImage
                          (watermarkPosition c) (watermarkSize c) in
  let marked :=
    MkCanvas (canvas_width titled) (canvas_height titled)
             [(DrawImageAt BaseImage 0 0, initialState);
              (DrawImageScaled WatermarkImage (wm_x p) (wm_y p)
                               (watermarkWidth p) (watermarkHeight p),
               ctx_state (setGlobalAlpha (watermarkOpacity c) newContext))] in
  processImageFinalization toDataURL meanwhile s
  = (setFinalImage (Some (toDataURL marked))
                   (meanwhile
                      (setLoadingMessage ApplyingTitleAndWatermark s)),
     None)
  /\ (watermarkWidth p == inject_Z (canvas_width titled) * watermarkSize c)%Q.
Proof.
  intros c He Hsrc Ht Hd [Hw Hh] Hf Hi. cbv zeta.
  destruct (applyTitle_resolved_inv _ _ _ _ _ _ Ht) as (Hctx & Hcw & Hch).
  split.
  - unfold processImageFinalization.
    rewrite He, (proj2 (truthyString_true src) Hsrc). cbn [negb]. cbv zeta.
    fold c. fold (titlePartsOf c). fold (subtitleOf c).
    rewrite Ht, Hf.
    rewrite (applyWatermark_resolved
               (toDataURL titled) decoded watermarkImage file
               (watermarkOpacity c) (watermarkPosition c) (watermarkSize c)
               Hd Hi Hctx ltac:(lia) ltac:(lia)).
    cbv zeta. rewrite Hw, Hh. reflexivity.
  - unfold placeWatermark, px. rewrite Hw.
    destruct (watermarkPosition c); cbn [watermarkWidth]; reflexivity.
Qed.

End Finalization.

Section FinalizationInstances.
Import JS Canvas FileUtils AppHandlers ExtraVocabulary.

(** An enhanced picture of 1600 by 1200, cropped to 1:1, and a logo of
    400 by 100 at 15% of the width. *)
Lemma processImageFinalization_watermark_on_cropped_witness :
  let host := ExtraSample.sizeHost in
  let c := ExtraSample.panel None (Some ExtraSample.logoFile)
                             GeminiService.styleDefault in
  let s := ExtraSample.idle c (Some Sample.photo)
                            (Some "data:image/png;base64,iVBORw0") in
  let titled :=
    @compose host (MkImage 1600 1200) 1 1 (titlePartsOf c) "Oswald"
             (Some (subtitleOf c)) in
  let p := placeWatermark 1200 1200 (MkImage 1200 1200) (MkImage 400 100)
                          bottomRight (15 # 100) in
  let marked :=
    MkCanvas 1200 1200
             [(DrawImageAt BaseImage 0 0, initialState);
              (DrawImageScaled WatermarkImage (wm_x p) (wm_y p)
                               (watermarkWidth p) (watermarkHeight p),
               ctx_state (setGlobalAlpha (1 # 2) newContext))] in
  @processImageFinalization host ExtraSample.encodeSize id s
  = (setFinalImage (Some (ExtraSample.encodeSize marked))
                   (setLoadingMessage ApplyingTitleAndWatermark s),
     None)
  /\ (watermarkWidth p == inject_Z 1200 * (15 # 100))%Q.
Proof.
  intros host c s titled.
  apply (@processImageFinalization_watermark_on_cropped
           host ExtraSample.encodeSize id s
           "data:image/png;base64,iVBORw0" titled (MkImage 1200 1200)
           ExtraSample.logoFile (MkImage 400 100)).
  - reflexivity.
  - discriminate.
  - vm_compute. reflexivity.
  - vm_compute. reflexivity.
  - split; vm_compute; reflexivity.
  - reflexivity.
  - reflexivity.
Defined.

End FinalizationInstances.
